(** * cleanpg: the tree renderer of package cleanhtml

    A shallow embedding of [cleanhtml/render.go], [cleanhtml/elements.go]
    and [cleanhtml/parse.go], and the properties of the renderer.

    Go strings are byte sequences: they are Rocq [string]s, one [ascii]
    per byte.  The output sink of [CleanHTML] is a [bytes.Buffer], whose
    write methods always return a nil error: the sink is the [string]
    written so far and the [if err != nil] branches after each write are
    dead.  The package-level variables [encounteredBodyElement] and
    [encounteredFirstH1Element] are threaded as explicit state; the three
    toggles set before a render are a read-only record. *)

From Stdlib Require Import NArith Ascii String List Bool Lia.
From stdpp Require Import base gmap strings.
From Equations Require Import Equations.

Local Open Scope string_scope.
Local Open Scope N_scope.

(* stdpp switches the unfolding of [String.append] off; the proofs
   below simplify appends to a literal. *)
#[local] Arguments String.append !s1 s2.

(** ** The parts of the Go library the renderer calls *)

Module Go.

(** [s[i:]] and [s[:i]] for [i <= len(s)]. *)
Fixpoint sliceFrom (i : nat) (s : string) : string :=
  match i, s with
  | O, _ => s
  | S _, EmptyString => EmptyString
  | S k, String _ s' => sliceFrom k s'
  end.

Fixpoint sliceTo (i : nat) (s : string) : string :=
  match i, s with
  | O, _ => EmptyString
  | S _, EmptyString => EmptyString
  | S k, String c s' => String c (sliceTo k s')
  end.

(** [strings.ContainsRune(chars, c)] for a byte [c] below [utf8.RuneSelf]
    and an ASCII [chars]. *)
Fixpoint containsByte (chars : string) (c : ascii) : bool :=
  match chars with
  | EmptyString => false
  | String d chars' => if Ascii.eqb c d then true else containsByte chars' c
  end.

(** [strings.IndexAny(s, chars)] for an ASCII [chars]: the index of the
    first byte of [s] that is in [chars], [None] for Go's [-1].  A byte of
    a multi-byte rune is at least 0x80 and never matches. *)
Fixpoint IndexAny (s chars : string) : option nat :=
  match s with
  | EmptyString => None
  | String c s' =>
      if containsByte chars c then Some O
      else option_map S (IndexAny s' chars)
  end.

(** [s[i]] *)
Fixpoint byteAt (i : nat) (s : string) : option ascii :=
  match s, i with
  | EmptyString, _ => None
  | String c _, O => Some c
  | String _ s', S k => byteAt k s'
  end.

(** Runes are code points. *)
Definition rune := N.
Definition RuneError : rune := 0xFFFD.

Definition inRange (lo hi : N) (c : ascii) : bool :=
  (lo <=? N_of_ascii c) && (N_of_ascii c <=? hi).

Definition low6 (c : ascii) : N := N.land (N_of_ascii c) 0x3F.

(** [utf8.DecodeRuneInString]: the rune at the start of a non-empty [s]
    and its width in bytes; an invalid or short encoding is
    [(RuneError, 1)]. *)
Definition DecodeRuneInString (s : string) : rune * nat :=
  match s with
  | EmptyString => (RuneError, O)
  | String b0 s1 =>
      let x := N_of_ascii b0 in
      if x <? 0x80 then (x, 1%nat)
      else if inRange 0xC2 0xDF b0 then
        match s1 with
        | String b1 _ =>
            if inRange 0x80 0xBF b1
            then (N.lor (N.shiftl (N.land x 0x1F) 6) (low6 b1), 2%nat)
            else (RuneError, 1%nat)
        | _ => (RuneError, 1%nat)
        end
      else if inRange 0xE0 0xEF b0 then
        let lo := if x =? 0xE0 then 0xA0 else 0x80 in
        let hi := if x =? 0xED then 0x9F else 0xBF in
        match s1 with
        | String b1 (String b2 _) =>
            if inRange lo hi b1 && inRange 0x80 0xBF b2
            then (N.lor (N.shiftl (N.land x 0x0F) 12)
                    (N.lor (N.shiftl (low6 b1) 6) (low6 b2)), 3%nat)
            else (RuneError, 1%nat)
        | _ => (RuneError, 1%nat)
        end
      else if inRange 0xF0 0xF4 b0 then
        let lo := if x =? 0xF0 then 0x90 else 0x80 in
        let hi := if x =? 0xF4 then 0x8F else 0xBF in
        match s1 with
        | String b1 (String b2 (String b3 _)) =>
            if inRange lo hi b1 && inRange 0x80 0xBF b2 && inRange 0x80 0xBF b3
            then (N.lor (N.shiftl (N.land x 0x07) 18)
                    (N.lor (N.shiftl (low6 b1) 12)
                       (N.lor (N.shiftl (low6 b2) 6) (low6 b3))), 4%nat)
            else (RuneError, 1%nat)
        | _ => (RuneError, 1%nat)
        end
      else (RuneError, 1%nat)
  end.

(** [for _, v := range s]: the runes of [s] in order.  [skip] counts the
    bytes still covered by the rune decoded last. *)
Fixpoint rangeFrom (skip : nat) (s : string) : list rune :=
  match s with
  | EmptyString => []
  | String _ s' =>
      match skip with
      | S k => rangeFrom k s'
      | O => let '(r, size) := DecodeRuneInString s in
             r :: rangeFrom (Nat.pred size) s'
      end
  end.

Definition range (s : string) : list rune := rangeFrom O s.

Definition byte (n : N) : ascii := ascii_of_N (n mod 256).

(** [utf8.AppendRune], the bytes [strings.Builder.WriteRune] appends. *)
Definition encodeRune (r : rune) : string :=
  if r <? 0x80 then String (byte r) EmptyString
  else if r <? 0x800 then
    String (byte (N.lor 0xC0 (N.shiftr r 6)))
      (String (byte (N.lor 0x80 (N.land r 0x3F))) EmptyString)
  else if (0x10FFFF <? r) || ((0xD800 <=? r) && (r <=? 0xDFFF)) then
    String (byte 0xEF) (String (byte 0xBF) (String (byte 0xBD) EmptyString))
  else if r <? 0x10000 then
    String (byte (N.lor 0xE0 (N.shiftr r 12)))
      (String (byte (N.lor 0x80 (N.land (N.shiftr r 6) 0x3F)))
         (String (byte (N.lor 0x80 (N.land r 0x3F))) EmptyString))
  else
    String (byte (N.lor 0xF0 (N.shiftr r 18)))
      (String (byte (N.lor 0x80 (N.land (N.shiftr r 12) 0x3F)))
         (String (byte (N.lor 0x80 (N.land (N.shiftr r 6) 0x3F)))
            (String (byte (N.lor 0x80 (N.land r 0x3F))) EmptyString))).

(** [unicode.IsSpace]: the Latin-1 cases, then the White_Space table. *)
Definition IsSpace (r : rune) : bool :=
  if r <=? 0xFF then
    (r =? 0x09) || (r =? 0x0A) || (r =? 0x0B) || (r =? 0x0C) || (r =? 0x0D)
    || (r =? 0x20) || (r =? 0x85) || (r =? 0xA0)
  else
    (r =? 0x1680) || ((0x2000 <=? r) && (r <=? 0x200A))
    || (r =? 0x2028) || (r =? 0x2029) || (r =? 0x202F) || (r =? 0x205F)
    || (r =? 0x3000).

(** [strings.ToLower] on a string without bytes above 0x7F: the letters
    A-Z become a-z.  (On other strings Go also maps the runes that have a
    lower-case form; the renderer below takes the folding function as a
    parameter and this one is its instance for ASCII tag names.) *)
Definition lowerByte (c : ascii) : ascii :=
  if inRange 0x41 0x5A c then ascii_of_N (N_of_ascii c + 32) else c.

Fixpoint ToLowerASCII (s : string) : string :=
  match s with
  | EmptyString => EmptyString
  | String c s' => String (lowerByte c) (ToLowerASCII s')
  end.

End Go.

(** ** Package cleanhtml *)

Module cleanhtml.

(** Control characters of the sources' string literals. *)
Definition CR : ascii := ascii_of_N 13.
Definition LF : ascii := ascii_of_N 10.
Definition TAB : ascii := ascii_of_N 9.
Definition QUOTE : ascii := ascii_of_N 34.

Definition chr (c : ascii) : string := String c EmptyString.

(** ** render.go: escape *)

(** The sink [w]: what has been written so far. *)
Definition writer := string.

Definition WriteString (w : writer) (s : string) : writer := w ++ s.
Definition WriteByte (w : writer) (c : ascii) : writer := w ++ chr c.

Definition escapedChars : string :=
  String "&" (String "'" (String "<" (String ">" (String QUOTE (String CR EmptyString))))).

(** The [switch s[i]] of [escape]; [None] is the [panic] of its default
    case. *)
Definition escapeSwitch (c : ascii) : option string :=
  if Ascii.eqb c "&" then Some "&amp;"
  else if Ascii.eqb c "'" then Some "&#39;"
  else if Ascii.eqb c "<" then Some "&lt;"
  else if Ascii.eqb c ">" then Some "&gt;"
  else if Ascii.eqb c QUOTE then Some "&#34;"
  else if Ascii.eqb c CR then Some "&#13;"
  else None.

Definition inspect {A : Type} (x : A) : { y : A | x = y } := exist _ x eq_refl.

(** [escape]: the loop runs while [IndexAny] finds an index [i]; each
    round writes [s[:i]] and the entity and goes on with [s[i+1:]].
    The result is [None] when the [switch] panics. *)
Equations? escape (w : writer) (s : string) : option writer
  by wf (String.length s) lt :=
  escape w s with inspect (Go.IndexAny s escapedChars) => {
    | exist _ None _ := Some (WriteString w s)
    | exist _ (Some i) Hi with Go.byteAt i s => {
        | None := None
        | Some c with escapeSwitch c => {
            | None := None
            | Some esc :=
                escape (WriteString (WriteString w (Go.sliceTo i s)) esc)
                       (Go.sliceFrom (S i) s) } } }.
Proof.
  clear escape.
  assert (Hlen : forall k t,
             (String.length (Go.sliceFrom k t) <= String.length t)%nat).
  { induction k as [|k IH]; intros [|x t]; simpl; try lia.
    specialize (IH t); lia. }
  destruct s as [|d s]; simpl in *; [discriminate|].
  specialize (Hlen i s). lia.
Qed.

(** ** elements.go: the policy table *)

(** [nodeElements] holds the attributes and the style of a renderable
    element. *)
Record nodeElements := mkNodeElements {
  attributes : list string;
  style : string
}.

(** A raw (back-quoted) literal that spans several source lines: the
    lines, joined by newlines.  [TT] is the two tabs that indent the
    continuation lines in elements.go. *)
Fixpoint rawLines (ls : list string) : string :=
  match ls with
  | [] => EmptyString
  | [l] => l
  | l :: ls' => l ++ chr LF ++ rawLines ls'
  end.

Definition TT (s : string) : string := String TAB (String TAB s).

Definition noPolicy : nodeElements := mkNodeElements [] "".
Definition styled (ls : list string) : nodeElements :=
  mkNodeElements [] (rawLines ls).

(** Void elements (can't have any contents). *)
Definition voidElements : gmap string bool :=
  list_to_map
    [ ("area", true); ("base", true); ("br", true); ("col", true);
      ("embed", true); ("hr", true); ("img", true); ("input", true);
      ("keygen", true); ("link", true); ("meta", true); ("param", true);
      ("source", true); ("track", true); ("wbr", true) ].

(** Elements and associated attributes to render. *)
Definition renderableHTML : gmap string nodeElements :=
  list_to_map
    [ (* Main root *)
      ("html", styled [ ""; TT "margin: auto;"; TT "height: 100%;";
                        TT "display: table;"; TT "background: #d6dede;";
                        TT "" ]);
      (* Document metadata *)
      ("head", noPolicy);
      ("title", noPolicy);
      (* Sectioning root *)
      ("body", styled [ ""; TT "margin: 0 auto;"; TT "padding-left: 20px;";
                        TT "padding-right: 20px;"; TT "height: 100%;";
                        TT "font: 115% 'PT Sans', 'Helvetica', sans-serif;";
                        TT "max-width: 800px;"; TT "color: #555753; ";
                        TT "background: #fff; "; TT "display: table-cell;";
                        TT "vertical-align: middle;"; TT "" ]);
      ("div", noPolicy);
      ("span", noPolicy);
      (* Content sectioning *)
      ("h1", styled [ ""; TT "font-size: 175%;"; TT "margin-top: 40px;"; TT "" ]);
      ("h2", styled [ ""; TT "font-size: 145%;"; TT "margin-top: 30px;"; TT "" ]);
      ("h3", styled [ ""; TT "font-size: 130%;"; TT "margin-top: 20px;"; TT "" ]);
      ("h4", noPolicy);
      ("h5", noPolicy);
      ("h6", noPolicy);
      (* Text content *)
      ("p", noPolicy);
      ("blockquote", noPolicy);
      ("pre", styled [ "font-family: Menlo, monospace;";
                       TT "font-size: 0.875rem;" ]);
      ("code", styled [ "font-family: Menlo, monospace;";
                        TT "word-spacing: -0.3em;";
                        TT "font-size: 0.875rem;" ]);
      (* Inline text semantics *)
      ("a", mkNodeElements ["href"] "");
      ("b", noPolicy);
      ("em", noPolicy);
      ("i", noPolicy);
      ("br", noPolicy);
      (* Table content *)
      ("caption", noPolicy);
      ("col", noPolicy);
      ("colgroup", noPolicy);
      ("table", noPolicy);
      ("tbody", noPolicy);
      ("td", noPolicy);
      ("tfoot", noPolicy);
      ("th", noPolicy);
      ("thead", noPolicy);
      ("tr", noPolicy) ].

(** [renderableHTML[k]] and [voidElements[k]]: a missing key reads as the
    zero value. *)
Definition policyOf (k : string) : nodeElements :=
  default noPolicy (renderableHTML !! k).

Definition isVoid (k : string) : bool := default false (voidElements !! k).

(** ** The package-level variables *)

(** [encounteredBodyElement], [encounteredFirstH1Element] (elements.go):
    both [false] when the process starts, written by
    [isElementRenderable] only. *)
Record globals := mkGlobals {
  encounteredBodyElement : bool;
  encounteredFirstH1Element : bool
}.

Definition initialGlobals : globals := mkGlobals false false.

(** [renderCanonicalMode], [renderStyle], [renderLinks] (parse.go): set by
    [SetPostH1Render], [SetStyleRender], [SetLinksRender] before
    [CleanHTML] is called, only read by the renderer. *)
Record config := mkConfig {
  renderCanonicalMode : bool;
  renderStyle : bool;
  renderLinks : bool
}.

Definition defaultConfig : config := mkConfig false true true.

Definition SetPostH1Render (flag : bool) (c : config) : config :=
  mkConfig flag (renderStyle c) (renderLinks c).
Definition SetStyleRender (flag : bool) (c : config) : config :=
  mkConfig (renderCanonicalMode c) flag (renderLinks c).
Definition SetLinksRender (flag : bool) (c : config) : config :=
  mkConfig (renderCanonicalMode c) (renderStyle c) flag.

(** ** The parsed tree, [html.Node] *)

Inductive NodeType :=
| ErrorNode | TextNode | DocumentNode | ElementNode | CommentNode
| DoctypeNode | RawNode
| OtherNode (k : N).  (* any other value of the [uint32] *)

Record Attribute := mkAttribute {
  Namespace : string;
  Key : string;
  Val : string
}.

(** The fields the renderer reads: [Type], [Data], [Attr] and the
    children, the list reached from [FirstChild] along [NextSibling].
    The [Parent] of a child is the node whose list holds it. *)
#[local] Unset Elimination Schemes.
Inductive Node :=
| mkNode (Type_ : NodeType) (Data : string) (Attr : list Attribute)
         (children : list Node).
#[local] Set Elimination Schemes.

Definition Type_ (n : Node) : NodeType := let 'mkNode t _ _ _ := n in t.
Definition Data (n : Node) : string := let 'mkNode _ d _ _ := n in d.
Definition Attr (n : Node) : list Attribute := let 'mkNode _ _ a _ := n in a.
Definition children (n : Node) : list Node := let 'mkNode _ _ _ cs := n in cs.

Definition isTextNode (n : Node) : bool :=
  match Type_ n with TextNode => true | _ => false end.

(** Results of the functions that return an [error]: [Nil], an error
    with its message, or a [panic] on the way. *)
Inductive result :=
| Nil
| Error (msg : string)
| Panic (msg : string).

(** A step on the sink and the package variables.  On an error the
    caller returns at once; what was written stays in the sink. *)
Definition action := globals -> writer -> result * globals * writer.

Definition andThen (a b : action) : action :=
  fun g w =>
    match a g w with
    | (Nil, g', w') => b g' w'
    | failed => failed
    end.

Declare Scope action_scope.
Delimit Scope action_scope with action.
Bind Scope action_scope with action.
Notation "a ;; b" := (andThen a b%action)
  (at level 100, b at level 200, right associativity) : action_scope.
Local Open Scope action_scope.

Definition returnNil : action := fun g w => (Nil, g, w).
Definition returnError (msg : string) : action := fun g w => (Error msg, g, w).
Definition write (s : string) : action := fun g w => (Nil, g, WriteString w s).
Definition writeByte (c : ascii) : action := fun g w => (Nil, g, WriteByte w c).

(** [forEach f cs]: [for c := n.FirstChild; c != nil; c = c.NextSibling]
    with a body [f c] that returns from the function on an error. *)
Definition forEach {A : Type} (f : A -> action) : list A -> action :=
  fix loop (cs : list A) : action :=
    match cs with
    | [] => returnNil
    | c :: cs' => f c ;; loop cs'
    end.

(** ** render.go *)

(** [isTextWhitespace] returns true if text block runes are entirely
    whitespace. *)
Definition isTextWhitespace (text : string) : bool :=
  forallb Go.IsSpace (Go.range text).

(** [cleanStyle] removes newlines, carriage-returns, and tab characters. *)
Definition cleanStyle (text : string) : string :=
  fold_left
    (fun b v =>
       if negb (v =? 13) && negb (v =? 10) && negb (v =? 9)
       then b ++ Go.encodeRune v else b)
    (Go.range text) "".

(** [renderCloseTag] renders the closing tag. *)
Definition closeTag (data : string) : string := "</" ++ data ++ ">".

Definition renderCloseTag (n : Node) : action := write (closeTag (Data n)).

Section Renderer.

(** [strings.ToLower], of the Go library. *)
Variable ToLower : string -> string.

Variable cfg : config.

(** [isElementRenderable] determines if the key [node] exists in the
    [renderableHTML] map; it returns the decision and the package
    variables as it leaves them. *)
Definition isElementRenderable (node : string) (g : globals) : bool * globals :=
  let lcaseTag := ToLower node in
  (* Is it in the map *)
  let doRender := bool_decide (is_Some (renderableHTML !! lcaseTag)) in
  (* Skip link rendering *)
  if String.eqb lcaseTag "a" && doRender && negb (renderLinks cfg)
  then (false, g)
  else
    (* Special processing directives for canonical mode *)
    if renderCanonicalMode cfg && doRender then
      let g1 :=
        if String.eqb lcaseTag "body"
        then mkGlobals true (encounteredFirstH1Element g) else g in
      let doRender1 :=
        if encounteredBodyElement g1
           && negb (encounteredFirstH1Element g1)
           && negb (String.eqb lcaseTag "body")
        then false else doRender in
      if String.eqb lcaseTag "h1"
      then (true, mkGlobals (encounteredBodyElement g1) true)
      else (doRender1, g1)
    else (doRender, g).

(** [isElementAttributeRenderable] determines if the key [attr] exists in
    [renderableHTML[node]]. *)
Definition isElementAttributeRenderable (node attr : string) : bool :=
  let lcNode := ToLower node in
  match renderableHTML !! lcNode with
  | None => false
  | Some entry => existsb (fun v => String.eqb v attr) (attributes entry)
  end.

(** [renderAttributes] renders an element's attributes. *)
Definition attributeText (data : string) (a : Attribute) : string :=
  if isElementAttributeRenderable data (Key a) then
    " " ++ (if String.eqb (Namespace a) "" then "" else Namespace a ++ ":")
        ++ Key a ++ "=" ++ chr QUOTE ++ Val a ++ chr QUOTE
  else "".

Definition renderAttributes (n : Node) : action :=
  forEach (fun a => write (attributeText (Data n) a)) (Attr n).

(** The style attribute of [renderStartTag]: [renderableHTML] is read
    under [n.Data] as it stands. *)
Definition styleAttribute (data : string) : string :=
  if renderStyle cfg && negb (String.eqb (style (policyOf data)) "")
  then cleanStyle (" style=" ++ chr QUOTE ++ style (policyOf data) ++ chr QUOTE)
  else "".

(** [renderStartTag] renders the start tag. *)
Definition renderStartTag (n : Node) : action :=
  writeByte LF ;;
  writeByte "<" ;;
  write (Data n) ;;
  write (styleAttribute (Data n)) ;;
  renderAttributes n ;;
  if isVoid (Data n) then
    match children n with
    | _ :: _ => returnError ("html: void element <" ++ Data n ++ "> has child nodes")
    | [] => write "/>"
    end
  else writeByte ">".

(** The call [isElementRenderable(...)] as a step. *)
Definition decide_renderable (data : string) (k : bool -> action) : action :=
  fun g w => let '(r, g') := isElementRenderable data g in k r g' w.

(** The body of the loop over the children of an element: a [TextNode]
    is not rendered if the parent element is unrenderable, and the test
    calls [isElementRenderable(c.Parent.Data)] again, for text children
    only.  [parentData] is [c.Parent.Data]; [render] is the recursive
    call. *)
Definition renderChild (render : Node -> action) (parentData : string)
    (c : Node) : action :=
  if isTextNode c then
    decide_renderable parentData (fun parentRenderable =>
      if negb parentRenderable then returnNil else render c)
  else render c.

(** [render] is the main entry point for the rendering engine. *)
Fixpoint render (n : Node) : action :=
  match n with
  | mkNode ty data attr cs =>
      match ty with
      | ErrorNode => returnError ("cleanhtml: error node [" ++ data ++ "]")
      | TextNode =>
          fun g w =>
            if isTextWhitespace data then (Nil, g, w)
            else match escape w data with
                 | Some w' => (Nil, g, w')
                 | None => (Panic "unrecognized escape character", g, w)
                 end
      | DocumentNode => forEach render cs
      | CommentNode => returnNil
      | DoctypeNode => write "<!DOCTYPE html>"
      | RawNode => write data
      | OtherNode _ => returnError "html: unknown node type"
      | ElementNode =>
          decide_renderable data (fun renderElement =>
            (if renderElement then renderStartTag n else returnNil) ;;
            forEach (renderChild render data) cs ;;
            (if renderElement then renderCloseTag n else returnNil))
      end
  end.

End Renderer.

(** ** parse.go: CleanHTML *)

(** What a call of [CleanHTML] does: it returns its two results, or a
    [panic] passes through it. *)
Inductive cleaned :=
| Returned (out : string) (err : option string)
| Panicked (msg : string).

(** [CleanHTML] provides a rendered HTML document.  [parsed] is what
    [html.Parse(bytes.NewReader(data))] returned: the document node, or
    its error.  The value of [render(w.(writer), docNodes)] is dropped
    and [buf.String(), nil] returned. *)
Definition CleanHTML (ToLower : string -> string) (cfg : config)
    (parsed : Node + string) (g : globals) : cleaned * globals :=
  match parsed with
  | inr err => (Returned "" (Some err), g)
  | inl docNodes =>
      match render ToLower cfg docNodes g "" with
      | (Panic msg, g', _) => (Panicked msg, g')
      | (_, g', buf) => (Returned buf None, g')
      end
  end.

End cleanhtml.

Import cleanhtml.
Local Open Scope action_scope.

(** *** Building trees *)

Definition element (data : string) (attr : list Attribute) (cs : list Node) : Node :=
  mkNode ElementNode data attr cs.
Definition text (data : string) : Node := mkNode TextNode data [] [].
Definition document (cs : list Node) : Node := mkNode DocumentNode "" [] cs.

(** *** Notions used in the statements *)

(** [strings.Contains(s, substr)]. *)
Fixpoint hasPrefix (s prefix : string) : bool :=
  match prefix, s with
  | EmptyString, _ => true
  | String p prefix', String c s' => Ascii.eqb c p && hasPrefix s' prefix'
  | String _ _, EmptyString => false
  end.

Fixpoint Contains (s substr : string) : bool :=
  hasPrefix s substr ||
  match s with
  | EmptyString => false
  | String _ s' => Contains s' substr
  end.

(** The Escaper as the specification words it: every character is
    replaced on its own, the six special ones by their entity and every
    other one by itself. *)
Definition escapeChar_spec (c : ascii) : string :=
  if Ascii.eqb c "&" then "&amp;"
  else if Ascii.eqb c "'" then "&#39;"
  else if Ascii.eqb c "<" then "&lt;"
  else if Ascii.eqb c ">" then "&gt;"
  else if Ascii.eqb c QUOTE then "&#34;"
  else if Ascii.eqb c CR then "&#13;"
  else chr c.

Fixpoint escape_spec (s : string) : string :=
  match s with
  | EmptyString => EmptyString
  | String c s' => escapeChar_spec c ++ escape_spec s'
  end.

(** The style text as the specification words it: every carriage-return,
    newline and tab character stripped. *)
Fixpoint stripControl_spec (s : string) : string :=
  match s with
  | EmptyString => EmptyString
  | String c s' =>
      if Ascii.eqb c CR || Ascii.eqb c LF || Ascii.eqb c TAB
      then stripControl_spec s'
      else String c (stripControl_spec s')
  end.

(** The style attribute as the specification words it, for the policy
    [pol] of the element: present when style injection is enabled and
    the policy declares a non-empty style. *)
Definition styleAttribute_spec (cfg : config) (pol : nodeElements) : string :=
  if renderStyle cfg && negb (String.eqb (style pol) "")
  then " style=" ++ chr QUOTE ++ stripControl_spec (style pol) ++ chr QUOTE
  else "".

(** Strings without bytes above 0x7F. *)
Fixpoint isASCII (s : string) : bool :=
  match s with
  | EmptyString => true
  | String c s' => (N_of_ascii c <? 0x80) && isASCII s'
  end.

(** The attributes of a start tag, as [renderAttributes] writes them. *)
Definition attributesText (ToLower : string -> string) (n : Node) : string :=
  fold_right (fun a rest => attributeText ToLower (Data n) a ++ rest) "" (Attr n).

(** The text of a complete start tag, as [renderStartTag] writes it when
    it returns nil. *)
Definition startTag (ToLower : string -> string) (cfg : config) (n : Node) : string :=
  chr LF ++ "<" ++ Data n ++ styleAttribute cfg (Data n)
    ++ attributesText ToLower n ++ (if isVoid (Data n) then "/>" else ">").

(** A step only appends to the sink, and what it appends and returns
    does not depend on what the sink holds. *)
Definition appending (a : action) : Prop :=
  forall g w, a g w = (let '(r, g', o) := a g "" in (r, g', w ++ o)).

(** The package variables are left alone by the renderer when canonical
    mode is off, and also once both are set. *)
Definition settled (cfg : config) (g : globals) : Prop :=
  renderCanonicalMode cfg = false \/ g = mkGlobals true true.

(** A step that leaves the package variables [g] as they are. *)
Definition keeps (g : globals) (a : action) : Prop :=
  forall w, snd (fst (a g w)) = g.

(** The children that are not text nodes. *)
Definition nonText (c : Node) : bool := negb (isTextNode c).

(** *** Trees used below *)

Definition href (val : string) : Attribute := mkAttribute "" "href" val.

(** The tree of [<a href="x">text</a>]. *)
Definition linkWithText : Node := element "a" [href "x"] [text "text"].

(** A document with a div before the first h1 of the body. *)
Definition divBeforeHeading : Node :=
  document
    [ element "html" []
        [ element "head" [] [];
          element "body" []
            [ element "div" [] [text "a"]; element "h1" [] [text "H"] ] ] ].

(** The tree [html.Parse] builds for [<svg><col>x</col></svg>]: inside
    the svg element, col is a foreign element and keeps its text child. *)
Definition svgColDocument : Node :=
  document
    [ element "html" []
        [ element "head" [] [];
          element "body" []
            [ element "svg" [] [ element "col" [] [text "x"] ] ] ] ].

(** What the renderer has written for [svgColDocument] when it reaches
    the child of col. *)
Definition svgColPartialOutput : string :=
  chr LF ++ "<html style=" ++ chr QUOTE
    ++ "margin: auto;height: 100%;display: table;background: #d6dede;"
    ++ chr QUOTE ++ ">"
  ++ chr LF ++ "<head></head>"
  ++ chr LF ++ "<body style=" ++ chr QUOTE
    ++ "margin: 0 auto;padding-left: 20px;padding-right: 20px;height: 100%;"
    ++ "font: 115% 'PT Sans', 'Helvetica', sans-serif;max-width: 800px;"
    ++ "color: #555753; background: #fff; display: table-cell;"
    ++ "vertical-align: middle;"
    ++ chr QUOTE ++ ">"
  ++ chr LF ++ "<col".

(** *** render.go: writeQuoted *)

(** [writeQuoted] writes [s] to [w] surrounded by quotes: double quotes,
    or single quotes when [s] contains a double quote. *)
Definition writeQuoted (s : string) : action :=
  let q := if Contains s (chr QUOTE) then "'"%char else QUOTE in
  writeByte q ;; write s ;; writeByte q.

(** *** Notions used in the further properties *)

(** The characters that [escape] leaves nowhere in its output. *)
Definition markupChars : string :=
  String "'" (String "<" (String ">" (String QUOTE (String CR EmptyString)))).

(** The white space of ASCII, as [unicode.IsSpace] has it below 0x80:
    tab, newline, vertical tab, form feed, carriage return, space. *)
Definition asciiSpace (c : ascii) : bool :=
  (9 <=? N_of_ascii c) && (N_of_ascii c <=? 13) || (N_of_ascii c =? 32).

Fixpoint allBytes (p : ascii -> bool) (s : string) : bool :=
  match s with
  | EmptyString => true
  | String c s' => p c && allBytes p s'
  end.

(** The package variables only ever go from false to true. *)
Definition flagsLe (g g' : globals) : Prop :=
  (encounteredBodyElement g = true -> encounteredBodyElement g' = true)
  /\ (encounteredFirstH1Element g = true -> encounteredFirstH1Element g' = true).

(** A tree that has no error node, no node of an unknown type and no
    child under an element with a void tag name. *)
Fixpoint wellFormed (n : Node) : bool :=
  match n with
  | mkNode ty data _ cs =>
      match ty with
      | ErrorNode | OtherNode _ => false
      | ElementNode =>
          (if isVoid data then bool_decide (cs = []) else true)
          && forallb wellFormed cs
      | _ => forallb wellFormed cs
      end
  end.

(** A tree of elements, text and comments in which no element is a body
    or an h1 (after lower-casing). *)
Fixpoint noHeading (ToLower : string -> string) (n : Node) : bool :=
  match n with
  | mkNode ty data _ cs =>
      match ty with
      | ElementNode =>
          negb (String.eqb (ToLower data) "h1")
          && negb (String.eqb (ToLower data) "body")
          && forallb (noHeading ToLower) cs
      | TextNode | CommentNode => true
      | _ => false
      end
  end.

(** The messages of the errors [render] creates. *)
Definition renderErrorMessage (msg : string) : Prop :=
  (exists data, msg = "cleanhtml: error node [" ++ data ++ "]")
  \/ msg = "html: unknown node type"
  \/ (exists data, isVoid data = true
       /\ msg = "html: void element <" ++ data ++ "> has child nodes").

(** The messages of the errors [render] returns when the lower-casing
    leaves the names of [voidElements] as they are: of the void
    elements only br and col are rendered. *)
Definition renderErrorMessage_br_col (msg : string) : Prop :=
  (exists data, msg = "cleanhtml: error node [" ++ data ++ "]")
  \/ msg = "html: unknown node type"
  \/ msg = "html: void element <br> has child nodes"
  \/ msg = "html: void element <col> has child nodes".

(** The errors of the step carry a message that satisfies [Q]. *)
Definition errorsIn (Q : string -> Prop) (a : action) : Prop :=
  forall g w msg, fst (fst (a g w)) = Error msg -> Q msg.

(** Properties of steps. *)

(** The step does not panic. *)
Definition neverPanics (a : action) : Prop :=
  forall g w msg, fst (fst (a g w)) <> Panic msg.

(** The step only sets package variables, it clears none. *)
Definition advances (a : action) : Prop :=
  forall g w, flagsLe g (snd (fst (a g w))).

(** The errors of the step carry one of the messages of [render]. *)
Definition errorsKnown (a : action) : Prop :=
  forall g w msg, fst (fst (a g w)) = Error msg -> renderErrorMessage msg.

(** The step neither reads nor writes the package variables. *)
Definition flagBlind (a : action) : Prop :=
  forall g g0 w, a g w = (let '(r, _, o) := a g0 w in (r, g, o)).

(** The step returns nil. *)
Definition succeeds (a : action) : Prop :=
  forall g w, fst (fst (a g w)) = Nil.

(** Induction on trees: the property holds of a node when it holds of
    all its children. *)
Fixpoint Node_forall_ind (P : Node -> Prop)
    (step : forall ty data attr cs, Forall P cs -> P (mkNode ty data attr cs))
    (n : Node) : P n :=
  match n with
  | mkNode ty data attr cs =>
      step ty data attr cs
        ((fix all (l : list Node) : Forall P l :=
            match l with
            | [] => @List.Forall_nil Node P
            | c :: l' => @List.Forall_cons Node P c l' (Node_forall_ind P step c) (all l')
            end) cs)
  end.

(** * Properties *)

(** *** Strings *)

Lemma append_nil_r (s : string) : s ++ "" = s.
Proof. induction s as [|c s IH]; simpl; [reflexivity | now rewrite IH]. Qed.

Lemma append_assoc (a b c : string) : (a ++ b) ++ c = a ++ (b ++ c).
Proof. induction a as [|x a IH]; simpl; [reflexivity | now rewrite IH]. Qed.

Lemma append_cancel_l (a b c : string) : a ++ b = a ++ c -> b = c.
Proof. induction a as [|x a IH]; simpl; intros H; [exact H | injection H; auto]. Qed.

Lemma escape_spec_app (a b : string) :
  escape_spec (a ++ b) = escape_spec a ++ escape_spec b.
Proof.
  induction a as [|x a IH]; simpl; [reflexivity|].
  now rewrite IH, append_assoc.
Qed.

(** *** The scan of [escape] *)

Lemma escapeSwitch_special (c : ascii) :
  Go.containsByte escapedChars c = true ->
  escapeSwitch c = Some (escapeChar_spec c).
Proof.
  unfold escapedChars, escapeSwitch, escapeChar_spec; simpl.
  repeat (destruct (Ascii.eqb c _); [reflexivity|]). discriminate.
Qed.

Lemma escapeChar_plain (c : ascii) :
  Go.containsByte escapedChars c = false -> escapeChar_spec c = chr c.
Proof.
  unfold escapedChars, escapeChar_spec; simpl.
  repeat (destruct (Ascii.eqb c _); [discriminate|]). reflexivity.
Qed.

Lemma IndexAny_None_plain (s : string) :
  Go.IndexAny s escapedChars = None -> escape_spec s = s.
Proof.
  induction s as [|c s IH]; cbn [Go.IndexAny escape_spec]; [reflexivity|].
  destruct (Go.containsByte escapedChars c) eqn:Hc; [discriminate|].
  destruct (Go.IndexAny s escapedChars); simpl; intros H; [discriminate H|].
  rewrite escapeChar_plain, IH by auto. reflexivity.
Qed.

(** At the index found, the string splits into a prefix without special
    characters, the special character and the rest. *)
Lemma IndexAny_Some_split (s : string) (i : nat) :
  Go.IndexAny s escapedChars = Some i ->
  exists c, Go.byteAt i s = Some c
    /\ Go.containsByte escapedChars c = true
    /\ escape_spec (Go.sliceTo i s) = Go.sliceTo i s
    /\ s = Go.sliceTo i s ++ String c (Go.sliceFrom (S i) s).
Proof.
  revert i; induction s as [|d s IH]; cbn [Go.IndexAny]; intros i;
    [discriminate|].
  destruct (Go.containsByte escapedChars d) eqn:Hd.
  - intros [= <-]. exists d. simpl. destruct s; auto.
  - destruct (Go.IndexAny s escapedChars) as [j|] eqn:Hj; simpl;
      intros H; [|discriminate H].
    injection H as <-. destruct (IH j eq_refl) as (c & Hb & Hc & Hp & Hs).
    exists c. cbn [Go.byteAt Go.sliceTo Go.sliceFrom escape_spec].
    rewrite escapeChar_plain, Hp by exact Hd.
    repeat split; auto. simpl. f_equal. exact Hs.
Qed.

(** [escape] appends the escaped text. *)
Lemma escape_eq (w : writer) (s : string) :
  escape w s = Some (w ++ escape_spec s).
Proof.
  funelim (escape w s).
  - unfold WriteString. now rewrite IndexAny_None_plain.
  - destruct (IndexAny_Some_split s i Hi) as (c & Hb & _). congruence.
  - destruct (IndexAny_Some_split s i Hi) as (c' & Hb & Hc & Hp & Hs).
    assert (c' = c) by congruence. subst c'.
    rewrite (escapeSwitch_special c Hc) in Heq. injection Heq as <-.
    rewrite H. unfold WriteString. f_equal.
    rewrite Hs at 3. rewrite escape_spec_app, Hp. simpl.
    now rewrite !append_assoc.
  - destruct (IndexAny_Some_split s i Hi) as (c' & Hb & Hc & _).
    assert (c' = c) by congruence. subst c'.
    rewrite (escapeSwitch_special c Hc) in Heq. discriminate.
Qed.

(** C6 -- [escape] returns for every input string (its [panic] is never
    reached), and what it appends to the sink is the input with each
    [&], ['], [<], [>], double quote and carriage return replaced by its
    entity ([&amp;], [&#39;], [&lt;], [&gt;], [&#34;], [&#13;]) and every
    other byte (newline, tab, the bytes of non-ASCII text) unchanged. *)
Theorem escape_replaces_each_special (w : writer) (s : string) :
  escape w s = Some (w ++ escape_spec s).
Proof. apply escape_eq. Qed.

(** ** The Renderability Decision Engine *)

Section Decision.

Variable ToLower : string -> string.
Variable cfg : config.

Lemma isElementRenderable_absent (node : string) (g : globals) :
  renderableHTML !! ToLower node = None ->
  isElementRenderable ToLower cfg node g = (false, g).
Proof.
  intros Habsent. unfold isElementRenderable. rewrite Habsent.
  rewrite bool_decide_eq_false_2 by (intros [x Hx]; discriminate Hx).
  now rewrite !andb_false_r.
Qed.

(** C8 -- a tag name whose lower-case form is not a key of the policy
    table is not renderable, and the call leaves
    [encounteredBodyElement] and [encounteredFirstH1Element] as they
    were, whatever the three toggles and whatever [strings.ToLower]
    computes. *)
Theorem isElementRenderable_unknown_tag (node : string) (g : globals) :
  renderableHTML !! ToLower node = None ->
  isElementRenderable ToLower cfg node g = (false, g).
Proof. apply isElementRenderable_absent. Qed.

Lemma isElementRenderable_link_off (node : string) (g : globals) :
  ToLower node = "a" -> renderLinks cfg = false ->
  isElementRenderable ToLower cfg node g = (false, g).
Proof.
  intros Ha Hoff. unfold isElementRenderable. rewrite Ha, Hoff.
  replace (bool_decide (is_Some (renderableHTML !! "a"))) with true
    by (vm_compute; reflexivity).
  reflexivity.
Qed.

Lemma isElementRenderable_settled (node : string) (g : globals) :
  settled cfg g -> snd (isElementRenderable ToLower cfg node g) = g.
Proof.
  unfold isElementRenderable.
  generalize (bool_decide (is_Some (renderableHTML !! ToLower node))).
  generalize (ToLower node). intros tag inTable [Hoff | ->].
  - rewrite Hoff. now destruct (String.eqb tag "a" && inTable && _).
  - destruct (String.eqb tag "a" && inTable && _); [reflexivity|].
    destruct (renderCanonicalMode cfg && inTable); [|reflexivity].
    destruct (String.eqb tag "body"), (String.eqb tag "h1"); reflexivity.
Qed.

End Decision.

Lemma isElementRenderable_unknown_tag_witness :
  renderableHTML !! Go.ToLowerASCII "SCRIPT" = None
  /\ isElementRenderable Go.ToLowerASCII (mkConfig true true false)
       "SCRIPT" (mkGlobals true false)
     = (false, mkGlobals true false).
Proof.
  split; [vm_compute; reflexivity|].
  apply (isElementRenderable_unknown_tag Go.ToLowerASCII).
  vm_compute; reflexivity.
Defined.

(** C5 -- canonical mode on, package variables both false at the start:
    along body, div, h1, p the body is renderable and sets
    [encounteredBodyElement]; the div is not renderable; the h1 is
    renderable and sets [encounteredFirstH1Element] (the suppression
    check before it has turned [doRender] off, the h1 check turns it on
    again in the same call); the p is renderable.  The other two toggles
    do not matter. *)
Theorem canonical_body_div_h1_p (rStyle rLinks : bool) :
  let decide := isElementRenderable Go.ToLowerASCII (mkConfig true rStyle rLinks) in
  decide "body" (mkGlobals false false) = (true, mkGlobals true false)
  /\ decide "div" (mkGlobals true false) = (false, mkGlobals true false)
  /\ decide "h1" (mkGlobals true false) = (true, mkGlobals true true)
  /\ decide "p" (mkGlobals true true) = (true, mkGlobals true true).
Proof. destruct rStyle, rLinks; repeat split; vm_compute; reflexivity. Qed.

(** ** Steps on the sink *)

(* The two tables are unfolded by [vm_compute] only. *)
#[local] Opaque renderableHTML voidElements.
#[local] Arguments isVoid : simpl never.
#[local] Arguments policyOf : simpl never.

Lemma appending_returnNil : appending returnNil.
Proof. intros g w. unfold returnNil. now rewrite append_nil_r. Qed.

Lemma appending_returnError (msg : string) : appending (returnError msg).
Proof. intros g w. unfold returnError. now rewrite append_nil_r. Qed.

Lemma appending_write (s : string) : appending (write s).
Proof. intros g w. reflexivity. Qed.

Lemma appending_writeByte (c : ascii) : appending (writeByte c).
Proof. intros g w. reflexivity. Qed.

Lemma appending_andThen (a b : action) :
  appending a -> appending b -> appending (a ;; b).
Proof.
  intros Ha Hb g w. unfold andThen. rewrite (Ha g w).
  destruct (a g "") as [[[| msg | msg] g1] o]; try reflexivity.
  rewrite (Hb g1 (w ++ o)), (Hb g1 o).
  destruct (b g1 "") as [[r g2] o2]. now rewrite append_assoc.
Qed.

Lemma appending_forEach {A : Type} (f : A -> action) (cs : list A) :
  Forall (fun c => appending (f c)) cs -> appending (forEach f cs).
Proof.
  induction 1 as [|c cs Hc _ IH]; cbn [forEach].
  - apply appending_returnNil.
  - apply appending_andThen; assumption.
Qed.

Create HintDb appending.
#[local] Hint Resolve appending_returnNil appending_returnError
  appending_write appending_writeByte appending_andThen : appending.

(** Running a step that only appends, from any sink. *)
Lemma appending_run (a : action) (g g' : globals) (w o : writer) (r : result) :
  appending a -> a g "" = (r, g', o) -> a g w = (r, g', w ++ o).
Proof. intros Ha Hrun. now rewrite (Ha g w), Hrun. Qed.

Lemma appending_inv (a : action) (g g' : globals) (w w' : writer) (r : result) :
  appending a -> a g w = (r, g', w') ->
  exists o, a g "" = (r, g', o) /\ w' = w ++ o.
Proof.
  intros Ha Hrun. rewrite (Ha g w) in Hrun.
  destruct (a g "") as [[r0 g0] o]. injection Hrun as -> -> <-. eauto.
Qed.

Section Rendering.

Variable ToLower : string -> string.
Variable cfg : config.

Local Abbreviation render := (render ToLower cfg).
Local Abbreviation isElementRenderable := (isElementRenderable ToLower cfg).
Local Abbreviation decide_renderable := (decide_renderable ToLower cfg).

Lemma appending_decide_renderable (data : string) (k : bool -> action) :
  (forall r, appending (k r)) -> appending (decide_renderable data k).
Proof.
  intros Hk g w. unfold cleanhtml.decide_renderable.
  destruct (isElementRenderable data g) as [r g1]. apply Hk.
Qed.

(** What [renderAttributes] writes. *)
Lemma renderAttributes_eq (n : Node) (g : globals) (w : writer) :
  renderAttributes ToLower n g w = (Nil, g, w ++ attributesText ToLower n).
Proof.
  unfold renderAttributes, attributesText.
  revert w; induction (Attr n) as [|a l IH]; intros w; cbn [forEach fold_right].
  - unfold returnNil. now rewrite append_nil_r.
  - unfold andThen, write, WriteString. rewrite IH. now rewrite append_assoc.
Qed.

(** What [renderStartTag] writes and returns: the complete start tag
    and nil, or, for a void element with a child, the tag up to its
    attributes and the error. *)
Lemma renderStartTag_eq (n : Node) (g : globals) (w : writer) :
  renderStartTag ToLower cfg n g w =
    if isVoid (Data n) && negb (bool_decide (children n = [])) then
      (Error ("html: void element <" ++ Data n ++ "> has child nodes"), g,
       w ++ chr LF ++ "<" ++ Data n ++ styleAttribute cfg (Data n)
         ++ attributesText ToLower n)
    else (Nil, g, w ++ startTag ToLower cfg n).
Proof.
  unfold renderStartTag, startTag, andThen, writeByte, write, WriteByte,
    WriteString.
  rewrite renderAttributes_eq.
  destruct (isVoid (Data n)); [destruct (children n) as [|c cs]|];
    cbn [andb negb bool_decide]; unfold returnError;
    rewrite ?bool_decide_eq_true_2, ?bool_decide_eq_false_2 by congruence;
    cbn [negb]; rewrite !append_assoc; reflexivity.
Qed.

Lemma appending_renderStartTag (n : Node) :
  appending (renderStartTag ToLower cfg n).
Proof.
  intros g w. rewrite !renderStartTag_eq.
  destruct (_ && _); reflexivity.
Qed.

Lemma appending_renderChild (data : string) (c : Node) :
  appending (render c) -> appending (renderChild ToLower cfg render data c).
Proof.
  intros Hc. unfold renderChild. destruct (isTextNode c); [|assumption].
  apply appending_decide_renderable. intros [|]; cbn [negb];
    auto with appending.
Qed.

(** The renderer only appends to the sink. *)
Lemma appending_render (n : Node) : appending (render n).
Proof.
  induction n as [ty data attr cs IH] using Node_forall_ind.
  destruct ty; cbn [cleanhtml.render]; auto with appending.
  - intros g w. destruct (isTextWhitespace data).
    + now rewrite append_nil_r.
    + now rewrite !escape_eq.
  - now apply appending_forEach.
  - apply appending_decide_renderable. intros r.
    apply appending_andThen; [|apply appending_andThen].
    + destruct r; auto using appending_renderStartTag with appending.
    + apply appending_forEach.
      eapply Forall_impl; [exact IH|]. intros c Hc.
      now apply appending_renderChild.
    + destruct r; unfold renderCloseTag; auto with appending.
Qed.

End Rendering.

(** ** Elements that are not rendered *)

Section Unrendered.

Variable ToLower : string -> string.
Variable cfg : config.

Local Abbreviation render := (render ToLower cfg).
Local Abbreviation isElementRenderable := (isElementRenderable ToLower cfg).

Lemma andThen_returnNil_r (a : action) (g : globals) (w : writer) :
  (a ;; returnNil) g w = a g w.
Proof. unfold andThen. now destruct (a g w) as [[[| msg | msg] g1] w1]. Qed.

(** Under a parent that is never renderable the loop over the children
    renders the children that are not text, in order. *)
Lemma forEach_skips_text (data : string) (cs : list Node) :
  (forall g, isElementRenderable data g = (false, g)) ->
  forall g w,
    forEach (renderChild ToLower cfg render data) cs g w
    = forEach render (List.filter nonText cs) g w.
Proof.
  intros Hnever. induction cs as [|c cs IH]; intros g w; [reflexivity|].
  cbn [forEach List.filter]. unfold nonText at 1, renderChild at 1, andThen at 1.
  destruct (isTextNode c); cbn [negb].
  - unfold decide_renderable. rewrite Hnever. cbn [negb]. apply IH.
  - cbn [forEach]. unfold andThen.
    destruct (render c g w) as [[[| msg | msg] g1] w1]; auto.
Qed.

Lemma render_unrendered_element (data : string) (attr : list Attribute)
    (cs : list Node) (g : globals) (w : writer) :
  (forall g, isElementRenderable data g = (false, g)) ->
  render (element data attr cs) g w
  = render (document (List.filter nonText cs)) g w.
Proof.
  intros Hnever. cbn [cleanhtml.render element document].
  unfold decide_renderable. rewrite Hnever.
  unfold andThen at 1. unfold returnNil at 1.
  rewrite andThen_returnNil_r. now apply forEach_skips_text.
Qed.

(** C10 -- the void check sits in [renderStartTag], which runs for
    renderable elements only: an element with a void tag name that is not
    in the policy table (img) and with children renders as its children
    do, the ones that are not text nodes in source order (text directly
    under it is skipped); it fails only if one of them fails. *)
Theorem void_check_only_for_renderable (data : string)
    (attr : list Attribute) (cs : list Node) (g : globals) (w : writer) :
  isVoid data = true ->
  renderableHTML !! ToLower data = None ->
  render (element data attr cs) g w
  = render (document (List.filter nonText cs)) g w.
Proof.
  intros _ Habsent. apply render_unrendered_element.
  intros g0. now apply isElementRenderable_absent.
Qed.

(** C3, as the code has it -- with link rendering disabled an [a]
    element is not rendered as a tag, and the text nodes directly under
    it are not emitted either: it renders as its children that are not
    text nodes do, in order. *)
Theorem links_off_render_non_text_children (data : string)
    (attr : list Attribute) (cs : list Node) (g : globals) (w : writer) :
  ToLower data = "a" ->
  renderLinks cfg = false ->
  render (element data attr cs) g w
  = render (document (List.filter nonText cs)) g w.
Proof.
  intros Ha Hoff. apply render_unrendered_element.
  intros g0. now apply isElementRenderable_link_off.
Qed.

End Unrendered.

Lemma void_check_only_for_renderable_witness :
  isVoid "img" = true
  /\ renderableHTML !! Go.ToLowerASCII "img" = None
  /\ render Go.ToLowerASCII defaultConfig
       (element "img" [] [text "t"; element "b" [] [text "x"]])
       initialGlobals ""
     = (Nil, initialGlobals, chr LF ++ "<b>x</b>").
Proof.
  split; [vm_compute; reflexivity|]. split; [vm_compute; reflexivity|].
  rewrite (void_check_only_for_renderable Go.ToLowerASCII defaultConfig)
    by (vm_compute; reflexivity).
  vm_compute; reflexivity.
Defined.

(** C3, as the claim states it, fails: with link rendering disabled the
    tree of [<a href="x">text</a>] renders to nothing; the text is not in
    the output. *)
Lemma link_text_not_emitted :
  let run := render Go.ToLowerASCII (SetLinksRender false defaultConfig)
               linkWithText initialGlobals "" in
  run = (Nil, initialGlobals, "") /\ Contains (snd run) "text" = false.
Proof. split; vm_compute; reflexivity. Qed.

Lemma links_off_render_non_text_children_witness :
  Go.ToLowerASCII "A" = "a"
  /\ renderLinks (SetLinksRender false defaultConfig) = false
  /\ render Go.ToLowerASCII (SetLinksRender false defaultConfig)
       (element "A" [href "x"] [text "t"; element "b" [] [text "text"]])
       initialGlobals ""
     = (Nil, initialGlobals, chr LF ++ "<b>text</b>").
Proof.
  split; [reflexivity|]. split; [reflexivity|].
  rewrite (links_off_render_non_text_children Go.ToLowerASCII
             (SetLinksRender false defaultConfig)) by reflexivity.
  vm_compute; reflexivity.
Defined.

(** ** Start tags and close tags *)

Section Tags.

Variable ToLower : string -> string.
Variable cfg : config.

Local Abbreviation render := (render ToLower cfg).
Local Abbreviation isElementRenderable := (isElementRenderable ToLower cfg).

Lemma appending_children (data : string) (cs : list Node) :
  appending (forEach (renderChild ToLower cfg render data) cs).
Proof.
  apply appending_forEach, Forall_forall. intros c _.
  apply appending_renderChild, appending_render.
Qed.

(** C4, as the code has it -- for an element node whose render returns
    nil: one decision [r], taken by [isElementRenderable] on entry,
    governs both tags.  The output is the complete start tag if [r], then
    what the children write, then the close tag if [r]: the close tag is
    emitted if and only if the start tag was. *)
Theorem close_tag_iff_start_tag (n : Node) (g g' : globals) (w w' : writer) :
  Type_ n = ElementNode ->
  render n g w = (Nil, g', w') ->
  let '(r, g1) := isElementRenderable (Data n) g in
  exists inner,
    forEach (renderChild ToLower cfg render (Data n)) (children n) g1 ""
      = (Nil, g', inner)
    /\ w' = w ++ (if r then startTag ToLower cfg n else "")
              ++ inner
              ++ (if r then closeTag (Data n) else "").
Proof.
  destruct n as [ty data attr cs]. cbn [Type_ Data children].
  intros -> Hrun. cbn [cleanhtml.render] in Hrun.
  unfold decide_renderable in Hrun.
  destruct (isElementRenderable data g) as [r g1].
  unfold andThen in Hrun.
  destruct r.
  - rewrite renderStartTag_eq in Hrun.
    destruct (isVoid _ && _); [discriminate Hrun|].
    destruct (forEach _ cs g1 _) as [[rc gc] wc] eqn:Hcs.
    destruct rc; try discriminate Hrun.
    unfold renderCloseTag, write, WriteString in Hrun.
    cbn [Data] in Hrun. injection Hrun as <- <-.
    apply appending_inv in Hcs as (inner & Hinner & ->);
      [|apply appending_children].
    exists inner. split; [exact Hinner|]. now rewrite !append_assoc.
  - unfold returnNil at 1 in Hrun.
    destruct (forEach _ cs g1 w) as [[rc gc] wc] eqn:Hcs.
    destruct rc; try discriminate Hrun.
    unfold returnNil in Hrun. injection Hrun as <- <-.
    apply appending_inv in Hcs as (inner & Hinner & ->);
      [|apply appending_children].
    exists inner. split; [exact Hinner|]. now rewrite append_nil_r.
Qed.

End Tags.

Lemma close_tag_iff_start_tag_witness :
  exists inner,
    forEach (renderChild Go.ToLowerASCII defaultConfig
               (render Go.ToLowerASCII defaultConfig) "div")
      [text "x"] initialGlobals ""
    = (Nil, initialGlobals, inner)
    /\ chr LF ++ "<div>x</div>"
       = "" ++ startTag Go.ToLowerASCII defaultConfig (element "div" [] [text "x"])
            ++ inner ++ closeTag "div".
Proof.
  exact (close_tag_iff_start_tag Go.ToLowerASCII defaultConfig
           (element "div" [] [text "x"]) initialGlobals initialGlobals
           "" (chr LF ++ "<div>x</div>") eq_refl
           ltac:(vm_compute; reflexivity)).
Defined.

(** C4, as the claim states it, fails when a child fails: the renderer
    returns the error of the error node, the start tag of the div is in
    the sink and its close tag is not. *)
Lemma start_tag_without_close_tag :
  let run := render Go.ToLowerASCII defaultConfig
               (element "div" [] [mkNode ErrorNode "e" [] []])
               initialGlobals "" in
  run = (Error "cleanhtml: error node [e]", initialGlobals, chr LF ++ "<div>")
  /\ Contains (snd run) "<div>" = true
  /\ Contains (snd run) "</div>" = false.
Proof. repeat split; vm_compute; reflexivity. Qed.

(** ** Successive renders *)

Section Successive.

Variable ToLower : string -> string.
Variable cfg : config.

Local Abbreviation render := (render ToLower cfg).
Local Abbreviation isElementRenderable := (isElementRenderable ToLower cfg).

Lemma keeps_andThen (g : globals) (a b : action) :
  keeps g a -> keeps g b -> keeps g (a ;; b).
Proof.
  intros Ha Hb w. unfold andThen. specialize (Ha w).
  destruct (a g w) as [[[| msg | msg] g1] w1]; cbn [fst snd] in *;
    try assumption.
  subst g1. apply Hb.
Qed.

Lemma keeps_forEach {A : Type} (g : globals) (f : A -> action) (cs : list A) :
  Forall (fun c => keeps g (f c)) cs -> keeps g (forEach f cs).
Proof.
  induction 1 as [|c cs Hc _ IH]; cbn [forEach].
  - intros w. reflexivity.
  - now apply keeps_andThen.
Qed.

Lemma keeps_decide_renderable (g : globals) (data : string)
    (k : bool -> action) :
  settled cfg g -> (forall r, keeps g (k r)) ->
  keeps g (decide_renderable ToLower cfg data k).
Proof.
  intros Hg Hk w. unfold decide_renderable.
  pose proof (isElementRenderable_settled ToLower cfg data g Hg) as Hsame.
  destruct (isElementRenderable data g) as [r g1]. cbn [snd] in Hsame.
  subst g1. apply Hk.
Qed.

Lemma keeps_renderStartTag (g : globals) (n : Node) :
  keeps g (renderStartTag ToLower cfg n).
Proof. intros w. rewrite renderStartTag_eq. now destruct (_ && _). Qed.

(** The renderer leaves settled package variables as they are. *)
Lemma render_settled (g : globals) (n : Node) :
  settled cfg g -> keeps g (render n).
Proof.
  intros Hg. induction n as [ty data attr cs IH] using Node_forall_ind.
  destruct ty; cbn [cleanhtml.render]; try (intros w; reflexivity).
  - intros w. destruct (isTextWhitespace data); [reflexivity|].
    now destruct (escape w data).
  - now apply keeps_forEach.
  - apply keeps_decide_renderable; [exact Hg|]. intros r.
    apply keeps_andThen; [|apply keeps_andThen].
    + destruct r; [apply keeps_renderStartTag | intros w; reflexivity].
    + apply keeps_forEach. eapply Forall_impl; [exact IH|].
      intros c Hc. unfold renderChild. destruct (isTextNode c); [|exact Hc].
      apply keeps_decide_renderable; [exact Hg|].
      intros [|]; cbn [negb]; [exact Hc | intros w; reflexivity].
    + destruct r; intros w; reflexivity.
Qed.

(** C2, as the code has it -- the two variables are package-level: they
    are not reset when a render starts and a call of [CleanHTML] starts
    with the values the previous one left.  Rendering the same tree
    twice in succession yields the same result when canonical mode is
    disabled, or when both variables are already set before the first
    call. *)
Theorem CleanHTML_twice_when_settled (parsed : Node + string)
    (g g' : globals) (res : cleaned) :
  settled cfg g ->
  CleanHTML ToLower cfg parsed g = (res, g') ->
  CleanHTML ToLower cfg parsed g' = (res, g').
Proof.
  intros Hg Hfirst. enough (g' = g) as -> by exact Hfirst.
  destruct parsed as [doc | err]; cbn [CleanHTML] in Hfirst.
  - pose proof (render_settled g doc Hg "") as Hsame.
    destruct (render doc g "") as [[[| msg | msg] g1] out];
      cbn [fst snd] in Hsame; injection Hfirst as _ <-; exact Hsame.
  - now injection Hfirst as _ <-.
Qed.

(** C1, as the code has it -- [CleanHTML] drops the error that [render]
    returns: the caller gets what was written before the error, with a
    nil error. *)
Theorem CleanHTML_drops_render_error (doc : Node) (g g' : globals)
    (msg : string) (out : writer) :
  render doc g "" = (Error msg, g', out) ->
  CleanHTML ToLower cfg (inl doc) g = (Returned out None, g').
Proof. intros Hrun. cbn [CleanHTML]. now rewrite Hrun. Qed.

End Successive.

Lemma CleanHTML_twice_when_settled_witness :
  let first := CleanHTML Go.ToLowerASCII defaultConfig
                 (inl divBeforeHeading) initialGlobals in
  settled defaultConfig initialGlobals
  /\ CleanHTML Go.ToLowerASCII defaultConfig (inl divBeforeHeading) (snd first)
     = first.
Proof.
  intros first. split; [left; reflexivity|].
  transitivity (fst first, snd first); [|symmetry; apply surjective_pairing].
  apply (CleanHTML_twice_when_settled Go.ToLowerASCII defaultConfig
           (inl divBeforeHeading) initialGlobals);
    [left; reflexivity | apply surjective_pairing].
Defined.

(** C2, as the claim states it, fails: in canonical mode the first
    render of [divBeforeHeading] suppresses the div and leaves both
    variables set; the second render of the same tree, in the same
    process, starts from there and renders the div. *)
Lemma second_render_differs :
  let cfg := SetPostH1Render true defaultConfig in
  let first := CleanHTML Go.ToLowerASCII cfg (inl divBeforeHeading)
                 initialGlobals in
  let second := CleanHTML Go.ToLowerASCII cfg (inl divBeforeHeading)
                  (snd first) in
  snd first = mkGlobals true true
  /\ fst first <> fst second.
Proof.
  cbv zeta. split; [vm_compute; reflexivity|].
  vm_compute. intros Heq. discriminate Heq.
Qed.

Lemma CleanHTML_drops_render_error_witness :
  render Go.ToLowerASCII defaultConfig svgColDocument initialGlobals ""
  = (Error "html: void element <col> has child nodes", initialGlobals,
     svgColPartialOutput)
  /\ CleanHTML Go.ToLowerASCII defaultConfig (inl svgColDocument) initialGlobals
     = (Returned svgColPartialOutput None, initialGlobals).
Proof.
  assert (Hrun : render Go.ToLowerASCII defaultConfig svgColDocument
                   initialGlobals ""
                 = (Error "html: void element <col> has child nodes",
                    initialGlobals, svgColPartialOutput))
    by (vm_compute; reflexivity).
  split; [exact Hrun|].
  exact (CleanHTML_drops_render_error Go.ToLowerASCII defaultConfig
           svgColDocument initialGlobals initialGlobals _ _ Hrun).
Defined.

(** C7 at [<br>], default configuration: without children the renderer
    writes a newline, the self-closed tag and then also a close tag;
    with a child it returns the void-element error. *)
Theorem void_element_br :
  render Go.ToLowerASCII defaultConfig (element "br" [] [])
    initialGlobals ""
  = (Nil, initialGlobals, chr LF ++ "<br/>" ++ "</br>")
  /\ render Go.ToLowerASCII defaultConfig (element "br" [] [text "x"])
       initialGlobals ""
     = (Error "html: void element <br> has child nodes", initialGlobals,
        chr LF ++ "<br").
Proof. split; vm_compute; reflexivity. Qed.

(** ** The style attribute *)

Lemma control_test (c : ascii) :
  negb (N_of_ascii c =? 13) && negb (N_of_ascii c =? 10)
    && negb (N_of_ascii c =? 9)
  = negb (Ascii.eqb c CR || Ascii.eqb c LF || Ascii.eqb c TAB).
Proof. destruct c as [[] [] [] [] [] [] [] []]; vm_compute; reflexivity. Qed.

Lemma encodeRune_ascii (c : ascii) :
  (N_of_ascii c <? 0x80) = true -> Go.encodeRune (N_of_ascii c) = chr c.
Proof.
  intros Hc. unfold Go.encodeRune, Go.byte. rewrite Hc.
  apply N.ltb_lt in Hc. rewrite N.mod_small by lia.
  now rewrite ascii_N_embedding.
Qed.

(** On a string of ASCII bytes the runes are the bytes, and [cleanStyle]
    removes the three control characters and keeps the rest. *)
Lemma cleanStyle_ascii_from (s b : string) :
  isASCII s = true ->
  fold_left
    (fun b v =>
       if negb (v =? 13) && negb (v =? 10) && negb (v =? 9)
       then b ++ Go.encodeRune v else b)
    (Go.rangeFrom O s) b
  = b ++ stripControl_spec s.
Proof.
  revert b; induction s as [|c s IH]; intros b; cbn [isASCII].
  - intros _. cbn. now rewrite append_nil_r.
  - intros [Hc Hs]%andb_prop.
    cbn [Go.rangeFrom Go.DecodeRuneInString stripControl_spec].
    rewrite Hc. cbn [Nat.pred fold_left]. rewrite control_test, IH by exact Hs.
    destruct (Ascii.eqb c CR || Ascii.eqb c LF || Ascii.eqb c TAB);
      cbn [negb]; [reflexivity|].
    rewrite encodeRune_ascii by exact Hc. now rewrite append_assoc.
Qed.

Lemma cleanStyle_ascii (s : string) :
  isASCII s = true -> cleanStyle s = stripControl_spec s.
Proof. intros Hs. unfold cleanStyle, Go.range. now rewrite cleanStyle_ascii_from. Qed.

Lemma isASCII_app (a b : string) :
  isASCII (a ++ b) = isASCII a && isASCII b.
Proof.
  induction a as [|c a IH]; cbn [isASCII String.append]; [reflexivity|].
  now rewrite IH, andb_assoc.
Qed.

Lemma stripControl_spec_app (a b : string) :
  stripControl_spec (a ++ b) = stripControl_spec a ++ stripControl_spec b.
Proof.
  induction a as [|c a IH]; cbn [stripControl_spec String.append];
    [reflexivity|].
  rewrite IH. now destruct (_ || _).
Qed.

(** The styles of the policy table are ASCII, and no policy allows an
    attribute named style. *)
Lemma renderableHTML_styles :
  map_Forall
    (fun _ pol =>
       isASCII (style pol) = true
       /\ existsb (fun v => String.eqb v "style") (attributes pol) = false)
    renderableHTML.
Proof. apply (bool_decide_unpack _). vm_compute. exact I. Qed.

Section Style.

Variable ToLower : string -> string.
Variable cfg : config.

Lemma styleAttribute_eq (data : string) (pol : nodeElements) :
  renderableHTML !! data = Some pol ->
  styleAttribute cfg data = styleAttribute_spec cfg pol.
Proof.
  intros Hpol. unfold styleAttribute, styleAttribute_spec, policyOf.
  rewrite Hpol. cbn [default from_option id].
  destruct (_ && _); [|reflexivity].
  destruct (renderableHTML_styles _ _ Hpol) as [Hascii _].
  rewrite cleanStyle_ascii
    by (rewrite !isASCII_app, Hascii; reflexivity).
  rewrite !stripControl_spec_app. reflexivity.
Qed.

Lemma source_style_attribute_dropped (data : string) (a : Attribute) :
  Key a = "style" -> attributeText ToLower data a = "".
Proof.
  intros Hkey. unfold attributeText, isElementAttributeRenderable.
  rewrite Hkey.
  destruct (renderableHTML !! ToLower data) as [pol|] eqn:Hpol;
    [|reflexivity].
  destruct (renderableHTML_styles _ _ Hpol) as [_ Hnone].
  now rewrite Hnone.
Qed.

(** For an element whose tag name [n.Data], as it stands in the node, is
    a key of the table with the policy [pol]:
    the start tag is a newline, [<], the tag name, then the style
    attribute, then the source attributes that pass the filter and the
    end of the tag.  The style attribute is [ style="..."] with the
    policy's style without its carriage returns, newlines and tabs when
    style injection is enabled and that style is not empty, and nothing
    otherwise; a source attribute named style never passes the
    filter. *)
Theorem style_attribute_of_start_tag (n : Node) (pol : nodeElements)
    (g : globals) (w : writer) :
  renderableHTML !! Data n = Some pol ->
  (exists res tail,
      renderStartTag ToLower cfg n g w
      = (res, g,
         w ++ chr LF ++ "<" ++ Data n ++ styleAttribute_spec cfg pol
           ++ attributesText ToLower n ++ tail)
      /\ (tail = "/>" \/ tail = ">" \/ tail = ""))
  /\ (forall a, Key a = "style" -> attributeText ToLower (Data n) a = "").
Proof.
  intros Hpol. split; [|intros a; apply source_style_attribute_dropped].
  rewrite renderStartTag_eq. unfold startTag.
  rewrite (styleAttribute_eq _ _ Hpol).
  destruct (isVoid (Data n)).
  - destruct (negb _); cbn [andb].
    + eexists _, "". rewrite append_nil_r. split; [reflexivity|auto].
    + eexists _, "/>". split; [reflexivity|auto].
  - cbn [andb]. eexists _, ">". split; [reflexivity|auto].
Qed.

End Style.

Lemma style_attribute_of_start_tag_witness :
  let h1 := element "h1" [mkAttribute "" "style" "color: red"] [] in
  let pol := styled [ ""; TT "font-size: 175%;"; TT "margin-top: 40px;"; TT "" ] in
  renderableHTML !! Data h1 = Some pol
  /\ ((exists res tail,
         renderStartTag Go.ToLowerASCII defaultConfig h1 initialGlobals ""
         = (res, initialGlobals,
            "" ++ chr LF ++ "<" ++ Data h1
              ++ styleAttribute_spec defaultConfig pol
              ++ attributesText Go.ToLowerASCII h1 ++ tail)
         /\ (tail = "/>" \/ tail = ">" \/ tail = ""))
      /\ (forall a, Key a = "style"
                    -> attributeText Go.ToLowerASCII (Data h1) a = "")).
Proof.
  intros h1 pol.
  assert (Hpol : renderableHTML !! Data h1 = Some pol)
    by (vm_compute; reflexivity).
  exact (conj Hpol
           (style_attribute_of_start_tag Go.ToLowerASCII defaultConfig
              h1 pol initialGlobals "" Hpol)).
Defined.

(** The start tag of an h1 that carries a style attribute of its own,
    with style injection enabled and disabled. *)
Example h1_start_tags :
  let h1 := element "h1" [mkAttribute "" "style" "color: red"] [] in
  renderStartTag Go.ToLowerASCII defaultConfig h1 initialGlobals ""
  = (Nil, initialGlobals,
     chr LF ++ "<h1 style=" ++ chr QUOTE
       ++ "font-size: 175%;margin-top: 40px;" ++ chr QUOTE ++ ">")
  /\ renderStartTag Go.ToLowerASCII (SetStyleRender false defaultConfig) h1
       initialGlobals ""
     = (Nil, initialGlobals, chr LF ++ "<h1>").
Proof. split; vm_compute; reflexivity. Qed.

(** [renderStartTag] reads the table under [n.Data] as it stands, while
    [isElementRenderable] lower-cases the name first: an element named
    BODY is rendered, without the style of body.  ([html.Parse] yields
    lower-case tag names.) *)
Example upper_case_tag_no_style :
  render Go.ToLowerASCII defaultConfig (element "BODY" [] [])
    initialGlobals ""
  = (Nil, initialGlobals, chr LF ++ "<BODY></BODY>").
Proof. vm_compute; reflexivity. Qed.


(** * Further properties *)

(** ** escape *)

Lemma containsByte_app (a b : string) (c : ascii) :
  Go.containsByte (a ++ b) c = Go.containsByte a c || Go.containsByte b c.
Proof.
  induction a as [|d a IH]; cbn [Go.containsByte String.append];
    [reflexivity|].
  rewrite IH. now destruct (Ascii.eqb c d).
Qed.

Lemma markupChars_cases (c : ascii) :
  Go.containsByte markupChars c = true ->
  c = "'"%char \/ c = "<"%char \/ c = ">"%char \/ c = QUOTE \/ c = CR.
Proof.
  unfold markupChars. cbn [Go.containsByte].
  repeat match goal with
         | |- context [Ascii.eqb c ?x] =>
             destruct (Ascii.eqb_spec c x) as [->|_]; [intros _; tauto|]
         end.
  discriminate.
Qed.

Lemma escapeChar_spec_clean (d c : ascii) :
  Go.containsByte markupChars c = true ->
  Go.containsByte (escapeChar_spec d) c = false.
Proof.
  intros Hc. unfold escapeChar_spec.
  repeat match goal with
         | |- context [Ascii.eqb d ?x] =>
             destruct (Ascii.eqb_spec d x) as [->|?];
             [apply markupChars_cases in Hc;
              destruct Hc as [-> | [-> | [-> | [-> | ->]]]]; vm_compute; reflexivity|]
         end.
  unfold chr. cbn [Go.containsByte].
  destruct (Ascii.eqb_spec c d) as [->|_]; [|reflexivity].
  apply markupChars_cases in Hc. tauto.
Qed.

Lemma escape_spec_clean (s : string) (c : ascii) :
  Go.containsByte markupChars c = true ->
  Go.containsByte (escape_spec s) c = false.
Proof.
  intros Hc. induction s as [|d s IH]; cbn [escape_spec]; [reflexivity|].
  now rewrite containsByte_app, escapeChar_spec_clean, IH.
Qed.

(** What [escape] appends holds no apostrophe, no [<], no [>], no double
    quote and no carriage return, whatever the input. *)
Theorem escape_output_has_no_markup (w : writer) (s : string) :
  exists o, escape w s = Some (w ++ o)
    /\ forall c, Go.containsByte markupChars c = true ->
                 Go.containsByte o c = false.
Proof.
  exists (escape_spec s). split; [apply escape_eq|].
  intros c. apply escape_spec_clean.
Qed.

(** [escape] of a concatenation is [escape] of the first part followed
    by [escape] of the second part on the same sink. *)
Theorem escape_app (w : writer) (a b : string) :
  escape w (a ++ b)
  = match escape w a with Some w' => escape w' b | None => None end.
Proof.
  rewrite (escape_eq w (a ++ b)), (escape_eq w a). cbv iota beta.
  now rewrite escape_eq, escape_spec_app, append_assoc.
Qed.

(** The first character written for [d] is [&] exactly when [d] is one
    of the six characters; the entities are told apart by what follows. *)
Lemma escapeChar_spec_inj (d e : ascii) (r r' : string) :
  escapeChar_spec d ++ r = escapeChar_spec e ++ r' -> d = e /\ r = r'.
Proof.
  unfold escapeChar_spec.
  destruct (Ascii.eqb_spec d "&") as [->|?];
  [|destruct (Ascii.eqb_spec d "'") as [->|?];
  [|destruct (Ascii.eqb_spec d "<") as [->|?];
  [|destruct (Ascii.eqb_spec d ">") as [->|?];
  [|destruct (Ascii.eqb_spec d QUOTE) as [->|?];
  [|destruct (Ascii.eqb_spec d CR) as [->|?]]]]]];
  (destruct (Ascii.eqb_spec e "&") as [->|?];
  [|destruct (Ascii.eqb_spec e "'") as [->|?];
  [|destruct (Ascii.eqb_spec e "<") as [->|?];
  [|destruct (Ascii.eqb_spec e ">") as [->|?];
  [|destruct (Ascii.eqb_spec e QUOTE) as [->|?];
  [|destruct (Ascii.eqb_spec e CR) as [->|?]]]]]]);
  cbn [String.append chr]; intros Heq;
  try (injection Heq as <-; congruence);
  try (injection Heq as ->; congruence);
  try discriminate Heq;
  try (injection Heq as <-; split; congruence).
Qed.

Lemma escape_spec_inj (s t : string) :
  escape_spec s = escape_spec t -> s = t.
Proof.
  revert t; induction s as [|d s IH]; intros [|e t]; cbn [escape_spec];
    intros Heq.
  - reflexivity.
  - exfalso. unfold escapeChar_spec in Heq.
    repeat (destruct (Ascii.eqb e _); [discriminate Heq|]).
    discriminate Heq.
  - exfalso. unfold escapeChar_spec in Heq.
    repeat (destruct (Ascii.eqb d _); [discriminate Heq|]).
    discriminate Heq.
  - apply escapeChar_spec_inj in Heq as [-> Heq]. f_equal. now apply IH.
Qed.

(** [escape] loses nothing: two inputs that leave the same sink are the
    same input. *)
Theorem escape_injective (w : writer) (s t : string) :
  escape w s = escape w t -> s = t.
Proof.
  rewrite !escape_eq. intros [= Heq].
  apply append_cancel_l in Heq. now apply escape_spec_inj.
Qed.

(** ** Text nodes *)

Lemma IsSpace_ascii (c : ascii) :
  (N_of_ascii c <? 0x80) = true -> Go.IsSpace (N_of_ascii c) = asciiSpace c.
Proof.
  destruct c as [[] [] [] [] [] [] [] []]; vm_compute; intros H;
    first [reflexivity | discriminate H].
Qed.

Lemma range_ascii_cons (c : ascii) (s : string) :
  (N_of_ascii c <? 0x80) = true ->
  Go.range (String c s) = N_of_ascii c :: Go.range s.
Proof.
  intros Hc. unfold Go.range. cbn [Go.rangeFrom Go.DecodeRuneInString].
  now rewrite Hc.
Qed.

Lemma isTextWhitespace_ascii_eq (s : string) :
  isASCII s = true -> isTextWhitespace s = allBytes asciiSpace s.
Proof.
  unfold isTextWhitespace.
  induction s as [|c s IH]; cbn [isASCII allBytes]; [reflexivity|].
  intros [Hc Hs]%andb_prop. rewrite range_ascii_cons by exact Hc.
  cbn [forallb]. now rewrite IsSpace_ascii, IH.
Qed.

(** On ASCII text, [isTextWhitespace] holds exactly when every byte is a
    tab, a newline, a vertical tab, a form feed, a carriage return or a
    space; the empty text is white space. *)
Theorem isTextWhitespace_ascii (s : string) :
  isASCII s = true -> isTextWhitespace s = allBytes asciiSpace s.
Proof. apply isTextWhitespace_ascii_eq. Qed.

Lemma asciiSpace_isASCII (s : string) :
  allBytes asciiSpace s = true -> isASCII s = true.
Proof.
  induction s as [|c s IH]; cbn [isASCII allBytes]; [reflexivity|].
  intros [Hc Hs]%andb_prop. rewrite IH by exact Hs.
  rewrite andb_true_r. apply N.ltb_lt. unfold asciiSpace in Hc.
  apply orb_prop in Hc as [[_ Hle]%andb_prop | Heq].
  - apply N.leb_le in Hle. lia.
  - apply N.eqb_eq in Heq. lia.
Qed.

Section TextNodes.

Variable ToLower : string -> string.
Variable cfg : config.

(** A text node of ASCII white space only writes nothing. *)
Theorem whitespace_text_writes_nothing (s : string) (g : globals)
    (w : writer) :
  allBytes asciiSpace s = true ->
  render ToLower cfg (text s) g w = (Nil, g, w).
Proof.
  intros Hs. cbn [cleanhtml.render text].
  rewrite isTextWhitespace_ascii_eq by now apply asciiSpace_isASCII.
  now rewrite Hs.
Qed.

(** A text node never fails and leaves the package variables alone; what
    it appends to the sink holds no apostrophe, [<], [>], double quote
    or carriage return: text cannot open or close a tag. *)
Theorem text_node_writes_no_markup (s : string) (g : globals) (w : writer) :
  exists o, render ToLower cfg (text s) g w = (Nil, g, w ++ o)
    /\ (o = "" \/ o = escape_spec s)
    /\ forall c, Go.containsByte markupChars c = true ->
                 Go.containsByte o c = false.
Proof.
  cbn [cleanhtml.render text]. destruct (isTextWhitespace s).
  - exists "". rewrite append_nil_r. repeat split; auto.
  - exists (escape_spec s). rewrite escape_eq. repeat split; auto.
    intros c. apply escape_spec_clean.
Qed.

End TextNodes.

Lemma whitespace_text_writes_nothing_witness :
  let s := " " ++ chr TAB ++ chr LF ++ chr CR ++ " " in
  allBytes asciiSpace s = true
  /\ render Go.ToLowerASCII defaultConfig (text s) initialGlobals "<p>"
     = (Nil, initialGlobals, "<p>").
Proof.
  intros s. split; [vm_compute; reflexivity|].
  apply (whitespace_text_writes_nothing Go.ToLowerASCII defaultConfig).
  vm_compute; reflexivity.
Defined.

Lemma isTextWhitespace_ascii_witness :
  isASCII ("a" ++ chr LF) = true
  /\ isTextWhitespace ("a" ++ chr LF) = allBytes asciiSpace ("a" ++ chr LF).
Proof.
  split; [vm_compute; reflexivity|].
  apply isTextWhitespace_ascii. vm_compute; reflexivity.
Defined.

(** ** writeQuoted *)

Lemma Contains_byte (s : string) (c : ascii) :
  Contains s (chr c) = Go.containsByte s c.
Proof.
  induction s as [|d s IH]; cbn [Contains hasPrefix chr Go.containsByte];
    [reflexivity|].
  replace (hasPrefix s "") with true by now destruct s.
  rewrite IH, andb_true_r, Ascii.eqb_sym.
  now destruct (Ascii.eqb c d).
Qed.

(** [writeQuoted] never fails and writes [s] between two equal quote
    characters: apostrophes when [s] holds a double quote, double quotes
    otherwise.  Unless [s] holds both a double quote and an apostrophe,
    the quote character chosen does not occur in [s]. *)
Theorem writeQuoted_delimiter (s : string) (g : globals) (w : writer) :
  let q := if Go.containsByte s QUOTE then "'"%char else QUOTE in
  writeQuoted s g w = (Nil, g, w ++ chr q ++ s ++ chr q)
  /\ (Go.containsByte s QUOTE = false \/ Go.containsByte s "'" = false ->
      Go.containsByte s q = false).
Proof.
  unfold writeQuoted, andThen, writeByte, write, WriteByte, WriteString.
  rewrite Contains_byte.
  destruct (Go.containsByte s QUOTE) eqn:Hq; cbv zeta;
    rewrite !append_assoc; split; auto.
  now intros [|].
Qed.

(** ** cleanStyle *)

Lemma stripControl_spec_idem (s : string) :
  stripControl_spec (stripControl_spec s) = stripControl_spec s.
Proof.
  induction s as [|c s IH]; cbn [stripControl_spec]; [reflexivity|].
  destruct (_ || _) eqn:Hc; [exact IH|].
  cbn [stripControl_spec]. now rewrite Hc, IH.
Qed.

Lemma stripControl_spec_ascii (s : string) :
  isASCII s = true -> isASCII (stripControl_spec s) = true.
Proof.
  induction s as [|c s IH]; cbn [stripControl_spec isASCII]; [reflexivity|].
  intros [Hc Hs]%andb_prop. destruct (_ || _); [auto|].
  cbn [isASCII]. now rewrite Hc, IH.
Qed.

Lemma stripControl_spec_clean (s : string) (c : ascii) :
  c = CR \/ c = LF \/ c = TAB ->
  Go.containsByte (stripControl_spec s) c = false.
Proof.
  intros Hc. induction s as [|d s IH]; cbn [stripControl_spec];
    [reflexivity|].
  destruct (_ || _) eqn:Hd; [exact IH|].
  cbn [Go.containsByte]. rewrite IH.
  destruct (Ascii.eqb_spec c d) as [<-|_]; [|reflexivity].
  destruct Hc as [-> | [-> | ->]]; vm_compute in Hd; discriminate Hd.
Qed.

(** On ASCII text [cleanStyle] removes the carriage returns, newlines
    and tabs and keeps every other byte in place: its result holds none
    of the three, and cleaning it again changes nothing. *)
Theorem cleanStyle_on_ascii (s : string) :
  isASCII s = true ->
  cleanStyle s = stripControl_spec s
  /\ (forall c, c = CR \/ c = LF \/ c = TAB ->
                Go.containsByte (cleanStyle s) c = false)
  /\ cleanStyle (cleanStyle s) = cleanStyle s.
Proof.
  intros Hs. rewrite (cleanStyle_ascii s Hs).
  split; [reflexivity|]. split.
  - intros c. apply stripControl_spec_clean.
  - rewrite cleanStyle_ascii by now apply stripControl_spec_ascii.
    apply stripControl_spec_idem.
Qed.

Lemma cleanStyle_on_ascii_witness :
  let s := chr LF ++ TT "font-size: 175%;" ++ chr LF in
  isASCII s = true
  /\ cleanStyle s = "font-size: 175%;".
Proof.
  intros s. split; [vm_compute; reflexivity|].
  destruct (cleanStyle_on_ascii s) as [-> _]; vm_compute; reflexivity.
Defined.

(** ** The policy table *)

Lemma renderableHTML_attributes :
  map_Forall
    (fun k pol => attributes pol = if String.eqb k "a" then ["href"] else [])
    renderableHTML.
Proof. apply (bool_decide_unpack _). vm_compute. exact I. Qed.

Lemma voidElements_renderable :
  map_Forall
    (fun k (_ : bool) => is_Some (renderableHTML !! k) -> k = "br" \/ k = "col")
    voidElements.
Proof. apply (bool_decide_unpack _). vm_compute. exact I. Qed.

(** The two tables: a tag name is both in [voidElements] and in
    [renderableHTML] exactly when it is br or col. *)
Theorem renderable_void_elements (k : string) :
  isVoid k = true /\ is_Some (renderableHTML !! k) <-> k = "br" \/ k = "col".
Proof.
  split.
  - intros [Hvoid Hin]. unfold isVoid in Hvoid.
    destruct (voidElements !! k) as [b|] eqn:Hk; [|discriminate Hvoid].
    exact (voidElements_renderable k b Hk Hin).
  - intros [-> | ->]; split; vm_compute; eauto.
Qed.

Section Attributes.

Variable ToLower : string -> string.

Lemma isElementAttributeRenderable_iff (node attr : string) :
  isElementAttributeRenderable ToLower node attr = true
  <-> ToLower node = "a" /\ attr = "href".
Proof.
  unfold isElementAttributeRenderable.
  destruct (renderableHTML !! ToLower node) as [pol|] eqn:Hpol.
  - rewrite (renderableHTML_attributes _ _ Hpol).
    destruct (String.eqb_spec (ToLower node) "a") as [Ha|Hna].
    + cbn [existsb]. rewrite orb_false_r.
      destruct (String.eqb_spec "href" attr) as [<-|Hne]; split; auto.
      * discriminate.
      * intros [_ ->]. congruence.
    + cbn [existsb]. split; [discriminate | tauto].
  - split; [discriminate|]. intros [Ha _]. rewrite Ha in Hpol.
    vm_compute in Hpol. discriminate Hpol.
Qed.

(** The attribute filter lets one attribute through: href, spelled so,
    on an element whose lower-cased tag name is a. *)
Theorem attribute_whitelist (node attr : string) :
  isElementAttributeRenderable ToLower node attr = true
  <-> ToLower node = "a" /\ attr = "href".
Proof. apply isElementAttributeRenderable_iff. Qed.

(** [renderAttributes] never fails and leaves the package variables
    alone; for an element that is not an [a] it writes nothing, whatever
    attributes the source gives it. *)
Theorem renderAttributes_non_link (n : Node) (g : globals) (w : writer) :
  ToLower (Data n) <> "a" ->
  renderAttributes ToLower n g w = (Nil, g, w).
Proof.
  intros Hna. rewrite renderAttributes_eq.
  enough (attributesText ToLower n = "") as -> by now rewrite append_nil_r.
  unfold attributesText. induction (Attr n) as [|a l IH]; [reflexivity|].
  cbn [fold_right]. rewrite IH, append_nil_r. unfold attributeText.
  destruct (isElementAttributeRenderable _ _ _) eqn:Hok; [|reflexivity].
  apply isElementAttributeRenderable_iff in Hok. tauto.
Qed.

End Attributes.

Lemma renderAttributes_non_link_witness :
  let n := element "p" [mkAttribute "" "onclick" "y"; href "x"] [] in
  Go.ToLowerASCII (Data n) <> "a"
  /\ renderAttributes Go.ToLowerASCII n initialGlobals "<p" = (Nil, initialGlobals, "<p").
Proof.
  intros n. split; [discriminate|].
  apply (renderAttributes_non_link Go.ToLowerASCII). discriminate.
Defined.

(** ** isElementRenderable in canonical mode *)

Section Canonical.

Variable ToLower : string -> string.
Variable cfg : config.

Local Abbreviation isElementRenderable := (isElementRenderable ToLower cfg).

(** Between the body and the first h1: in canonical mode, once a body has
    been seen and no h1 yet, every element other than body and h1 is not
    renderable, and the two variables stay as they are. *)
Theorem suppressed_before_first_heading (node : string) (g : globals) :
  renderCanonicalMode cfg = true ->
  encounteredBodyElement g = true ->
  encounteredFirstH1Element g = false ->
  ToLower node <> "body" -> ToLower node <> "h1" ->
  isElementRenderable node g = (false, g).
Proof.
  intros Hcanon Hbody Hh1 Hnb Hnh. unfold cleanhtml.isElementRenderable.
  generalize (bool_decide (is_Some (renderableHTML !! ToLower node))).
  intros inTable. rewrite Hcanon.
  apply String.eqb_neq in Hnb, Hnh. rewrite Hnb, Hnh, Hbody, Hh1.
  destruct (String.eqb (ToLower node) "a"), inTable, (renderLinks cfg);
    reflexivity.
Qed.

Lemma isElementRenderable_again (node : string) (g : globals) :
  isElementRenderable node (snd (isElementRenderable node g))
  = isElementRenderable node g.
Proof.
  unfold cleanhtml.isElementRenderable.
  generalize (bool_decide (is_Some (renderableHTML !! ToLower node))).
  generalize (ToLower node). intros tag inTable.
  destruct g as [b h].
  destruct (String.eqb tag "a"), inTable, (renderLinks cfg),
    (renderCanonicalMode cfg), (String.eqb tag "body"),
    (String.eqb tag "h1"), b, h; reflexivity.
Qed.

(** Asking again gives the same answer: a second call of
    [isElementRenderable] for the same tag name, right after the first,
    returns the same decision and leaves the variables as the first call
    left them. *)
Theorem isElementRenderable_idempotent (node : string) (g : globals) :
  isElementRenderable node (snd (isElementRenderable node g))
  = isElementRenderable node g.
Proof. apply isElementRenderable_again. Qed.

Lemma isElementRenderable_flagsLe (node : string) (g : globals) :
  flagsLe g (snd (isElementRenderable node g)).
Proof.
  unfold cleanhtml.isElementRenderable, flagsLe.
  generalize (bool_decide (is_Some (renderableHTML !! ToLower node))).
  generalize (ToLower node). intros tag inTable.
  destruct g as [b h].
  destruct (String.eqb tag "a"), inTable, (renderLinks cfg),
    (renderCanonicalMode cfg), (String.eqb tag "body"),
    (String.eqb tag "h1"), b, h; cbn; auto.
Qed.

(** Only a body sets [encounteredBodyElement] and only an h1 sets
    [encounteredFirstH1Element], and only in canonical mode for a tag of
    the table. *)
Theorem flags_set_by_body_and_h1_only (node : string) (g : globals) :
  let g' := snd (isElementRenderable node g) in
  (encounteredBodyElement g' <> encounteredBodyElement g ->
   renderCanonicalMode cfg = true /\ ToLower node = "body"
   /\ encounteredBodyElement g' = true)
  /\ (encounteredFirstH1Element g' <> encounteredFirstH1Element g ->
      renderCanonicalMode cfg = true /\ ToLower node = "h1"
      /\ encounteredFirstH1Element g' = true).
Proof.
  unfold cleanhtml.isElementRenderable.
  generalize (bool_decide (is_Some (renderableHTML !! ToLower node))).
  intros inTable.
  destruct (String.eqb_spec (ToLower node) "body") as [Hb|Hb];
  destruct (String.eqb_spec (ToLower node) "h1") as [Hh|Hh];
  destruct g as [b h];
  destruct (String.eqb (ToLower node) "a"), inTable, (renderLinks cfg),
    (renderCanonicalMode cfg), b, h; cbn; split; intros Hne;
    try congruence; auto.
Qed.

End Canonical.

Lemma suppressed_before_first_heading_witness :
  let cfg := SetPostH1Render true defaultConfig in
  let g := mkGlobals true false in
  renderCanonicalMode cfg = true
  /\ encounteredBodyElement g = true
  /\ encounteredFirstH1Element g = false
  /\ Go.ToLowerASCII "NAV" <> "body" /\ Go.ToLowerASCII "NAV" <> "h1"
  /\ isElementRenderable Go.ToLowerASCII cfg "NAV" g = (false, g).
Proof.
  intros cfg g. repeat (split; [first [reflexivity | discriminate]|]).
  apply (suppressed_before_first_heading Go.ToLowerASCII cfg);
    first [reflexivity | discriminate].
Defined.

(** ** Properties of every render *)

Lemma forEach_app {A : Type} (f : A -> action) (l l' : list A)
    (g : globals) (w : writer) :
  forEach f (l ++ l') g w = (forEach f l ;; forEach f l') g w.
Proof.
  revert g w; induction l as [|c l IH]; intros g w; cbn [forEach app].
  - reflexivity.
  - unfold andThen.
    destruct (f c g w) as [[[| msg | msg] g1] w1]; try reflexivity.
    rewrite IH. reflexivity.
Qed.

Section EveryRender.

Variable ToLower : string -> string.
Variable cfg : config.

Local Abbreviation render := (render ToLower cfg).

(** A property of steps that the building blocks of [render] have and
    that sequencing keeps holds of the render of every tree. *)
Lemma render_steps_ind (P : action -> Prop) :
  P returnNil ->
  (forall msg, renderErrorMessage msg -> P (returnError msg)) ->
  (forall s, P (write s)) ->
  (forall c, P (writeByte c)) ->
  (forall a b, P a -> P b -> P (a ;; b)) ->
  (forall data k, (forall r, P (k r)) ->
                  P (decide_renderable ToLower cfg data k)) ->
  (forall data attr cs, P (render (mkNode TextNode data attr cs))) ->
  forall n, P (render n).
Proof.
  intros Hnil Herr Hwrite Hbyte Hseq Hdec Htext.
  assert (Hloop : forall (A : Type) (f : A -> action) (l : list A),
             Forall (fun c => P (f c)) l -> P (forEach f l)).
  { intros A f l Hl. induction Hl; cbn [forEach]; auto. }
  induction n as [ty data attr cs IH] using Node_forall_ind.
  destruct ty.
  - cbn [cleanhtml.render]. apply Herr. left. now exists data.
  - apply Htext.
  - cbn [cleanhtml.render]. apply Hloop, IH.
  - cbn [cleanhtml.render]. apply Hdec. intros r.
    apply Hseq; [|apply Hseq].
    + destruct r; [|exact Hnil]. unfold renderStartTag.
      repeat (apply Hseq; [now auto|]).
      apply Hseq.
      { unfold renderAttributes. apply Hloop, Forall_forall. auto. }
      cbn [Data children]. destruct (isVoid data) eqn:Hvoid; [|now auto].
      destruct cs; [now auto|]. apply Herr. right. right. now exists data.
    + apply Hloop. eapply Forall_impl; [exact IH|]. intros c Hc.
      unfold renderChild. destruct (isTextNode c); [|exact Hc].
      apply Hdec. intros [|]; cbn [negb]; auto.
    + destruct r; [apply Hwrite | exact Hnil].
  - exact Hnil.
  - apply Hwrite.
  - apply Hwrite.
  - cbn [cleanhtml.render]. apply Herr. right. now left.
Qed.

Lemma neverPanics_render (n : Node) : neverPanics (render n).
Proof.
  apply render_steps_ind; try (intros; intros g w m; cbn; discriminate).
  - intros a b Ha Hb g w m. unfold andThen.
    specialize (Ha g w). destruct (a g w) as [[[| e | e] g1] w1];
      cbn [fst] in *; [apply Hb | discriminate | apply Ha].
  - intros data k Hk g w m. unfold decide_renderable.
    destruct (isElementRenderable _ _ _ _). apply Hk.
  - intros data attr cs g w m. cbn [cleanhtml.render].
    destruct (isTextWhitespace data); [cbn; discriminate|].
    rewrite escape_eq. cbn; discriminate.
Qed.

(** [CleanHTML] returns for every input and does not panic.  For a
    parsed document its error is nil, whatever the renderer met; its
    error is the parser's when the parser failed, with an empty output
    and the package variables untouched. *)
Theorem CleanHTML_returns (parsed : Node + string) (g : globals) :
  match parsed with
  | inl doc => exists out g', CleanHTML ToLower cfg parsed g = (Returned out None, g')
  | inr err => CleanHTML ToLower cfg parsed g = (Returned "" (Some err), g)
  end.
Proof.
  destruct parsed as [doc | err]; [|reflexivity].
  cbn [CleanHTML]. pose proof (neverPanics_render doc g "") as Hnp.
  destruct (render doc g "") as [[[| e | e] g1] out]; cbn [fst] in Hnp;
    eauto. now destruct (Hnp e).
Qed.

(** [render] only appends: the sink it returns is the sink it was given
    followed by what it wrote, and what it wrote, its result and the
    package variables do not depend on what the sink held. *)
Theorem render_only_appends (n : Node) (g : globals) (w : writer) :
  render n g w = (let '(r, g', o) := render n g "" in (r, g', w ++ o)).
Proof. apply appending_render. Qed.

Lemma flagsLe_refl (g : globals) : flagsLe g g.
Proof. split; auto. Qed.

Lemma flagsLe_trans (g1 g2 g3 : globals) :
  flagsLe g1 g2 -> flagsLe g2 g3 -> flagsLe g1 g3.
Proof. intros [H1 H2] [H3 H4]. split; auto. Qed.

Lemma advances_render (n : Node) : advances (render n).
Proof.
  apply render_steps_ind; try (intros; intros g w; apply flagsLe_refl).
  - intros a b Ha Hb g w. unfold andThen. specialize (Ha g w).
    destruct (a g w) as [[[| e | e] g1] w1]; cbn [fst snd] in *;
      try exact Ha.
    eapply flagsLe_trans; [exact Ha | apply Hb].
  - intros data k Hk g w. unfold decide_renderable.
    pose proof (isElementRenderable_flagsLe ToLower cfg data g) as Hle.
    destruct (isElementRenderable _ _ _ _) as [r g1]. cbn [snd] in Hle.
    eapply flagsLe_trans; [exact Hle | apply Hk].
  - intros data attr cs g w. cbn [cleanhtml.render].
    destruct (isTextWhitespace data); [apply flagsLe_refl|].
    rewrite escape_eq. apply flagsLe_refl.
Qed.

(** A render never clears [encounteredBodyElement] or
    [encounteredFirstH1Element]: a variable that is set when the render
    starts is set when it returns, with or without an error. *)
Theorem render_keeps_flags_set (n : Node) (g g' : globals) (w w' : writer)
    (r : result) :
  render n g w = (r, g', w') ->
  (encounteredBodyElement g = true -> encounteredBodyElement g' = true)
  /\ (encounteredFirstH1Element g = true ->
      encounteredFirstH1Element g' = true).
Proof.
  intros Hrun. pose proof (advances_render n g w) as Hle.
  rewrite Hrun in Hle. exact Hle.
Qed.

Lemma errorsKnown_render (n : Node) : errorsKnown (render n).
Proof.
  apply render_steps_ind; try (intros; intros g w m; cbn; discriminate).
  - intros msg Hmsg g w m. cbn. now intros [= <-].
  - intros a b Ha Hb g w m. unfold andThen. specialize (Ha g w).
    destruct (a g w) as [[[| e | e] g1] w1]; cbn [fst] in *;
      [apply Hb | apply Ha | discriminate].
  - intros data k Hk g w m. unfold decide_renderable.
    destruct (isElementRenderable _ _ _ _). apply Hk.
  - intros data attr cs g w m. cbn [cleanhtml.render].
    destruct (isTextWhitespace data); [cbn; discriminate|].
    rewrite escape_eq. cbn; discriminate.
Qed.

(** The errors of [render] are of three kinds: an error node of the
    tree, a node of an unknown type, and a child under a void element;
    its error message is one of the three, the last one for a tag name
    of [voidElements]. *)
Theorem render_error_messages (n : Node) (g g' : globals) (w w' : writer)
    (msg : string) :
  render n g w = (Error msg, g', w') -> renderErrorMessage msg.
Proof.
  intros Hrun. apply (errorsKnown_render n g w). now rewrite Hrun.
Qed.

End EveryRender.

Lemma render_keeps_flags_set_witness :
  let cfg := SetPostH1Render true defaultConfig in
  render Go.ToLowerASCII cfg (element "h1" [] []) (mkGlobals true false) ""
  = (Nil, mkGlobals true true, chr LF ++ "<h1 style=" ++ chr QUOTE
       ++ "font-size: 175%;margin-top: 40px;" ++ chr QUOTE ++ "></h1>")
  /\ ((encounteredBodyElement (mkGlobals true false) = true ->
       encounteredBodyElement (mkGlobals true true) = true)
      /\ (encounteredFirstH1Element (mkGlobals true false) = true ->
          encounteredFirstH1Element (mkGlobals true true) = true)).
Proof.
  intros cfg.
  assert (Hrun : render Go.ToLowerASCII cfg (element "h1" [] [])
                   (mkGlobals true false) ""
                 = (Nil, mkGlobals true true, chr LF ++ "<h1 style=" ++ chr QUOTE
                      ++ "font-size: 175%;margin-top: 40px;" ++ chr QUOTE
                      ++ "></h1>")) by (vm_compute; reflexivity).
  exact (conj Hrun (render_keeps_flags_set Go.ToLowerASCII cfg _ _ _ _ _ _ Hrun)).
Defined.

Lemma render_error_messages_witness :
  render Go.ToLowerASCII defaultConfig (element "br" [] [text "x"])
    initialGlobals ""
  = (Error "html: void element <br> has child nodes", initialGlobals,
     chr LF ++ "<br")
  /\ renderErrorMessage "html: void element <br> has child nodes".
Proof.
  assert (Hrun : render Go.ToLowerASCII defaultConfig
                   (element "br" [] [text "x"]) initialGlobals ""
                 = (Error "html: void element <br> has child nodes",
                    initialGlobals, chr LF ++ "<br"))
    by (vm_compute; reflexivity).
  exact (conj Hrun (render_error_messages Go.ToLowerASCII defaultConfig
                      _ _ _ _ _ _ Hrun)).
Defined.

(** ** Canonical mode and the package variables *)

Section CanonicalRender.

Variable ToLower : string -> string.
Variable cfg : config.

Local Abbreviation render := (render ToLower cfg).
Local Abbreviation isElementRenderable := (isElementRenderable ToLower cfg).

Lemma isElementRenderable_canonical_off (node : string) (g g0 : globals) :
  renderCanonicalMode cfg = false ->
  isElementRenderable node g = (fst (isElementRenderable node g0), g).
Proof.
  intros Hoff. unfold cleanhtml.isElementRenderable. rewrite Hoff.
  now destruct (_ && _ && _).
Qed.

Lemma flagBlind_render (n : Node) :
  renderCanonicalMode cfg = false -> flagBlind (render n).
Proof.
  intros Hoff. apply render_steps_ind; try (intros; intros g g0 w; reflexivity).
  - intros a b Ha Hb g g0 w. unfold andThen. rewrite (Ha g g0 w).
    destruct (a g0 w) as [[[| e | e] g1] w1]; try reflexivity.
    rewrite (Hb g g1 w1). now destruct (b g1 w1) as [[r2 g2] w2].
  - intros data k Hk g g0 w. unfold decide_renderable.
    rewrite (isElementRenderable_canonical_off data g g0 Hoff).
    rewrite (isElementRenderable_canonical_off data g0 g0 Hoff).
    apply Hk.
  - intros data attr cs g g0 w. cbn [cleanhtml.render].
    destruct (isTextWhitespace data); [reflexivity|].
    now rewrite escape_eq.
Qed.

(** With canonical mode off the package variables play no part: a render
    returns them as it got them, and its result and output are the same
    whatever their values. *)
Theorem render_ignores_flags_without_canonical_mode (n : Node)
    (g g0 : globals) (w : writer) :
  renderCanonicalMode cfg = false ->
  render n g w = (let '(r, _, o) := render n g0 w in (r, g, o)).
Proof. intros Hoff. now apply flagBlind_render. Qed.

Lemma isElementRenderable_suppressed (node : string) (g : globals) :
  renderCanonicalMode cfg = true ->
  encounteredBodyElement g = true ->
  encounteredFirstH1Element g = false ->
  String.eqb (ToLower node) "body" = false ->
  String.eqb (ToLower node) "h1" = false ->
  isElementRenderable node g = (false, g).
Proof.
  intros Hcanon Hbody Hh1 Hnb Hnh. unfold cleanhtml.isElementRenderable.
  generalize (bool_decide (is_Some (renderableHTML !! ToLower node))).
  intros inTable. rewrite Hcanon, Hnb, Hnh, Hbody, Hh1.
  destruct (String.eqb (ToLower node) "a"), inTable, (renderLinks cfg);
    reflexivity.
Qed.

Lemma noHeading_render (n : Node) (g : globals) :
  renderCanonicalMode cfg = true ->
  encounteredBodyElement g = true ->
  encounteredFirstH1Element g = false ->
  noHeading ToLower n = true -> isTextNode n = false ->
  forall w, render n g w = (Nil, g, w).
Proof.
  intros Hcanon Hbody Hh1.
  induction n as [ty data attr cs IH] using Node_forall_ind.
  destruct ty; cbn [noHeading isTextNode Type_]; try discriminate;
    [|reflexivity].
  intros [[Hnh Hnb]%andb_prop Hcs]%andb_prop _ w.
  apply negb_true_iff in Hnh, Hnb.
  cbn [cleanhtml.render]. unfold decide_renderable at 1.
  rewrite isElementRenderable_suppressed by assumption.
  unfold andThen at 1, returnNil at 1.
  rewrite andThen_returnNil_r.
  clear attr. revert w. induction cs as [|c cs IHcs]; intros w;
    [reflexivity|].
  cbn [forEach forallb] in *. apply andb_prop in Hcs as [Hc Hcs].
  apply Forall_cons_1 in IH as [IHc IH].
  unfold andThen.
  assert (Hchild : renderChild ToLower cfg render data c g w = (Nil, g, w)).
  { unfold renderChild. destruct (isTextNode c) eqn:Htext.
    - unfold decide_renderable.
      now rewrite isElementRenderable_suppressed by assumption.
    - now apply IHc. }
  rewrite Hchild. now apply IHcs.
Qed.

(** What canonical mode is for: once a body has been seen and no h1 yet,
    an element whose subtree holds elements, text and comments only, and
    no body and no h1, writes nothing and leaves the variables as they
    are. *)
Theorem nothing_rendered_before_first_heading (n : Node) (g : globals)
    (w : writer) :
  renderCanonicalMode cfg = true ->
  encounteredBodyElement g = true ->
  encounteredFirstH1Element g = false ->
  Type_ n = ElementNode ->
  noHeading ToLower n = true ->
  render n g w = (Nil, g, w).
Proof.
  intros Hcanon Hbody Hh1 Hty Hquiet.
  apply noHeading_render; try assumption.
  unfold isTextNode. now rewrite Hty.
Qed.

End CanonicalRender.

Section AfterHeading.

Variable ToLower : string -> string.
Variable cfg : config.

Local Abbreviation bothSet := (mkGlobals true true).
Local Abbreviation cfgOff := (SetPostH1Render false cfg).

Lemma isElementRenderable_bothSet (node : string) :
  isElementRenderable ToLower cfg node bothSet
  = isElementRenderable ToLower cfgOff node bothSet.
Proof.
  unfold isElementRenderable, SetPostH1Render.
  cbn [renderLinks renderCanonicalMode].
  generalize (bool_decide (is_Some (renderableHTML !! ToLower node))).
  intros inTable.
  destruct (String.eqb (ToLower node) "a"), inTable, (renderLinks cfg),
    (renderCanonicalMode cfg), (String.eqb (ToLower node) "body"),
    (String.eqb (ToLower node) "h1"); reflexivity.
Qed.

Lemma andThen_agree (g : globals) (a a' b b' : action) :
  (forall w, a g w = a' g w) -> keeps g a ->
  (forall w, b g w = b' g w) ->
  forall w, (a ;; b) g w = (a' ;; b') g w.
Proof.
  intros Ha Hkeep Hb w. unfold andThen. rewrite <- Ha.
  specialize (Hkeep w).
  destruct (a g w) as [[[| e | e] g1] w1]; cbn [fst snd] in Hkeep;
    try reflexivity.
  subst g1. apply Hb.
Qed.

Lemma forEach_agree {A : Type} (g : globals) (f f' : A -> action)
    (l : list A) :
  Forall (fun c => (forall w, f c g w = f' c g w) /\ keeps g (f c)) l ->
  forall w, forEach f l g w = forEach f' l g w.
Proof.
  induction 1 as [|c l [Hc Hkeep] _ IH]; cbn [forEach]; [reflexivity|].
  now apply andThen_agree.
Qed.

Lemma keeps_renderChild (g : globals) (data : string) (c : Node) :
  settled cfg g ->
  keeps g (renderChild ToLower cfg (render ToLower cfg) data c).
Proof.
  intros Hg. unfold renderChild.
  destruct (isTextNode c); [|now apply render_settled].
  apply keeps_decide_renderable; [exact Hg|].
  intros [|]; cbn [negb]; [now apply render_settled | intros w; reflexivity].
Qed.

Lemma render_bothSet (n : Node) (w : writer) :
  render ToLower cfg n bothSet w = render ToLower cfgOff n bothSet w.
Proof.
  assert (Hset : settled cfg bothSet) by (right; reflexivity).
  revert w. induction n as [ty data attr cs IH] using Node_forall_ind.
  destruct ty; intros w; try reflexivity.
  - cbn [render]. apply forEach_agree.
    eapply Forall_impl; [exact IH|]. intros c Hc. split; [exact Hc|].
    now apply render_settled.
  - cbn [render]. unfold decide_renderable at 1 2.
    rewrite <- isElementRenderable_bothSet.
    pose proof (isElementRenderable_settled ToLower cfg data bothSet Hset)
      as Hsame.
    destruct (isElementRenderable ToLower cfg data bothSet) as [r g1].
    cbn [snd] in Hsame. subst g1.
    apply andThen_agree; [| |apply andThen_agree].
    + intros w0. destruct r; reflexivity.
    + destruct r; [apply keeps_renderStartTag | intros w0; reflexivity].
    + apply forEach_agree. eapply Forall_impl; [exact IH|].
      intros c Hc. split; [|now apply keeps_renderChild].
      intros w0. unfold renderChild. destruct (isTextNode c); [|apply Hc].
      unfold decide_renderable. rewrite <- isElementRenderable_bothSet.
      pose proof (isElementRenderable_settled ToLower cfg data bothSet Hset)
        as Hsame'.
      destruct (isElementRenderable ToLower cfg data bothSet) as [r' g2].
      cbn [snd] in Hsame'. subst g2.
      destruct r'; cbn [negb]; [apply Hc | reflexivity].
    + apply keeps_forEach, Forall_forall. intros c _.
      now apply keeps_renderChild.
    + intros w0. destruct r; reflexivity.
Qed.

(** After the first h1: once both variables are set, canonical mode
    changes nothing any more; a render gives what it gives with
    canonical mode switched off. *)
Theorem canonical_mode_ends_at_first_heading (n : Node) (w : writer) :
  render ToLower cfg n (mkGlobals true true) w
  = render ToLower (SetPostH1Render false cfg) n (mkGlobals true true) w.
Proof. apply render_bothSet. Qed.

End AfterHeading.

Lemma render_ignores_flags_without_canonical_mode_witness :
  renderCanonicalMode defaultConfig = false
  /\ render Go.ToLowerASCII defaultConfig divBeforeHeading (mkGlobals true false) ""
     = (let '(r, _, o) := render Go.ToLowerASCII defaultConfig divBeforeHeading
                            initialGlobals "" in
        (r, mkGlobals true false, o)).
Proof.
  split; [reflexivity|].
  apply (render_ignores_flags_without_canonical_mode Go.ToLowerASCII).
  reflexivity.
Defined.

Lemma nothing_rendered_before_first_heading_witness :
  let cfg := SetPostH1Render true defaultConfig in
  let g := mkGlobals true false in
  let nav := element "div" []
               [ element "a" [href "/"] [text "Home"]; text "menu" ] in
  renderCanonicalMode cfg = true
  /\ encounteredBodyElement g = true
  /\ encounteredFirstH1Element g = false
  /\ Type_ nav = ElementNode
  /\ noHeading Go.ToLowerASCII nav = true
  /\ render Go.ToLowerASCII cfg nav g "" = (Nil, g, "").
Proof.
  intros cfg g nav. repeat (split; [reflexivity|]).
  apply (nothing_rendered_before_first_heading Go.ToLowerASCII cfg);
    reflexivity.
Defined.

(** ** Success and failure of a render *)

Section Outcome.

Variable ToLower : string -> string.
Variable cfg : config.

Local Abbreviation render := (render ToLower cfg).

Lemma succeeds_andThen (a b : action) :
  succeeds a -> succeeds b -> succeeds (a ;; b).
Proof.
  intros Ha Hb g w. unfold andThen. specialize (Ha g w).
  destruct (a g w) as [[[| e | e] g1] w1]; cbn [fst] in Ha;
    try discriminate Ha.
  apply Hb.
Qed.

Lemma succeeds_forEach {A : Type} (f : A -> action) (l : list A) :
  Forall (fun c => succeeds (f c)) l -> succeeds (forEach f l).
Proof.
  induction 1; cbn [forEach]; [intros g w; reflexivity|].
  now apply succeeds_andThen.
Qed.

Lemma succeeds_decide_renderable (data : string) (k : bool -> action) :
  (forall r, succeeds (k r)) -> succeeds (decide_renderable ToLower cfg data k).
Proof.
  intros Hk g w. unfold decide_renderable.
  destruct (isElementRenderable _ _ _ _). apply Hk.
Qed.

Lemma succeeds_render (n : Node) :
  wellFormed n = true -> succeeds (render n).
Proof.
  induction n as [ty data attr cs IH] using Node_forall_ind.
  assert (Hall : forallb wellFormed cs = true ->
                 Forall (fun c => succeeds (render c)) cs).
  { intros Hcs. rewrite forallb_forall in Hcs.
    rewrite Forall_forall in IH |- *. intros c Hc.
    apply IH; [exact Hc|]. apply Hcs. now apply list_elem_of_In. }
  destruct ty; cbn [wellFormed]; try discriminate; intros Hwf;
    cbn [cleanhtml.render]; try (intros g w; reflexivity).
  - intros g w. destruct (isTextWhitespace data); [reflexivity|].
    now rewrite escape_eq.
  - now apply succeeds_forEach, Hall.
  - apply andb_prop in Hwf as [Hvoid Hcs].
    apply succeeds_decide_renderable. intros r.
    apply succeeds_andThen; [|apply succeeds_andThen].
    + destruct r; [|intros g w; reflexivity].
      intros g w. rewrite renderStartTag_eq. cbn [Data children].
      destruct (isVoid data); [|reflexivity].
      now rewrite Hvoid.
    + apply succeeds_forEach. eapply Forall_impl; [exact (Hall Hcs)|].
      intros c Hc. unfold renderChild. destruct (isTextNode c); [|exact Hc].
      apply succeeds_decide_renderable.
      intros [|]; cbn [negb]; [exact Hc | intros g w; reflexivity].
    + destruct r; intros g w; reflexivity.
Qed.

(** A tree without error nodes, without nodes of an unknown type and
    without children under elements with a void tag name renders without
    error, whatever the toggles and the package variables. *)
Theorem render_succeeds_on_well_formed (n : Node) (g : globals) (w : writer) :
  wellFormed n = true ->
  exists g' o, render n g w = (Nil, g', w ++ o).
Proof.
  intros Hwf. pose proof (succeeds_render n Hwf g w) as Hnil.
  pose proof (appending_render ToLower cfg n g w) as Happ.
  destruct (render n g "") as [[r g'] o]. rewrite Happ in Hnil |- *.
  cbn [fst] in Hnil. subst r. eauto.
Qed.

(** A document renders its children one after the other: rendering a
    document is rendering the first part of its children and then, if
    that returned nil, the rest, on the sink and the variables the first
    part left. *)
Theorem render_document_app (l l' : list Node) (g : globals) (w : writer) :
  render (document (l ++ l')) g w
  = (render (document l) ;; render (document l')) g w.
Proof. cbn [cleanhtml.render document]. apply forEach_app. Qed.

(** The first failing child ends the render of a document: the error is
    returned, the sink holds what was written up to it, and the children
    after it are not rendered. *)
Theorem render_document_stops_at_error (pre post : list Node) (bad : Node)
    (g g1 g2 : globals) (w w1 w2 : writer) (msg : string) :
  render (document pre) g w = (Nil, g1, w1) ->
  render bad g1 w1 = (Error msg, g2, w2) ->
  render (document (pre ++ bad :: post)) g w = (Error msg, g2, w2).
Proof.
  cbn [cleanhtml.render document]. intros Hpre Hbad.
  rewrite forEach_app. unfold andThen at 1. rewrite Hpre.
  cbn [forEach]. unfold andThen. now rewrite Hbad.
Qed.

End Outcome.

Lemma render_succeeds_on_well_formed_witness :
  wellFormed divBeforeHeading = true
  /\ exists g' o,
       render Go.ToLowerASCII (SetPostH1Render true defaultConfig)
         divBeforeHeading initialGlobals "" = (Nil, g', "" ++ o).
Proof.
  assert (Hwf : wellFormed divBeforeHeading = true)
    by (vm_compute; reflexivity).
  exact (conj Hwf
           (render_succeeds_on_well_formed Go.ToLowerASCII
              (SetPostH1Render true defaultConfig) divBeforeHeading
              initialGlobals "" Hwf)).
Defined.

Lemma render_document_stops_at_error_witness :
  let bad := mkNode ErrorNode "e" [] [] in
  render Go.ToLowerASCII defaultConfig
    (document [text "a"; bad; text "b"]) initialGlobals ""
  = (Error "cleanhtml: error node [e]", initialGlobals, "a").
Proof.
  intros bad.
  apply (render_document_stops_at_error Go.ToLowerASCII defaultConfig
           [text "a"] [text "b"] bad initialGlobals initialGlobals
           initialGlobals "" "a" "a");
    vm_compute; reflexivity.
Defined.

Lemma escape_injective_witness :
  escape "" "a<b" = escape "" "a<b" /\ "a<b" = "a<b".
Proof.
  split; [reflexivity|]. apply (escape_injective ""). reflexivity.
Defined.

(** ** The void-element error *)

Lemma voidElements_lower_case :
  map_Forall (fun k (_ : bool) => Go.ToLowerASCII k = k) voidElements.
Proof. apply (bool_decide_unpack _). vm_compute. exact I. Qed.

Lemma errorsIn_andThen (Q : string -> Prop) (a b : action) :
  errorsIn Q a -> errorsIn Q b -> errorsIn Q (a ;; b).
Proof.
  intros Ha Hb g w msg. unfold andThen. specialize (Ha g w).
  destruct (a g w) as [[[| e | e] g1] w1]; cbn [fst] in *;
    [apply Hb | apply Ha | discriminate].
Qed.

Lemma errorsIn_forEach {A : Type} (Q : string -> Prop) (f : A -> action)
    (l : list A) :
  Forall (fun c => errorsIn Q (f c)) l -> errorsIn Q (forEach f l).
Proof.
  induction 1; cbn [forEach]; [intros g w msg; cbn; discriminate|].
  now apply errorsIn_andThen.
Qed.

Section VoidError.

Variable ToLower : string -> string.
Variable cfg : config.

(** [strings.ToLower] leaves a lower-case ASCII name as it is. *)
Hypothesis ToLower_void : forall k, isVoid k = true -> ToLower k = k.

Local Abbreviation render := (render ToLower cfg).
Local Abbreviation Q := renderErrorMessage_br_col.

Lemma errorsIn_decide_renderable (data : string) (k : bool -> action) :
  (forall r, errorsIn Q (k r)) ->
  errorsIn Q (decide_renderable ToLower cfg data k).
Proof.
  intros Hk g w msg. unfold decide_renderable.
  destruct (isElementRenderable _ _ _ _). apply Hk.
Qed.

(** In the table, [renderStartTag] fails for br and col only. *)
Lemma errorsIn_renderStartTag (n : Node) :
  is_Some (renderableHTML !! ToLower (Data n)) ->
  errorsIn Q (renderStartTag ToLower cfg n).
Proof.
  intros Hin g w msg. rewrite renderStartTag_eq.
  destruct (isVoid (Data n)) eqn:Hvoid; [|cbn; discriminate].
  destruct (negb _); cbn; [|discriminate].
  intros [= <-]. rewrite (ToLower_void _ Hvoid) in Hin.
  unfold isVoid in Hvoid.
  destruct (voidElements !! Data n) as [b|] eqn:Hk; [|discriminate Hvoid].
  destruct (voidElements_renderable _ b Hk Hin) as [-> | ->]; unfold Q;
    auto.
Qed.

Lemma errorsIn_renderChild (data : string) (c : Node) :
  errorsIn Q (render c) ->
  errorsIn Q (renderChild ToLower cfg render data c).
Proof.
  intros Hc. unfold renderChild. destruct (isTextNode c); [|exact Hc].
  apply errorsIn_decide_renderable. intros [|]; cbn [negb]; [exact Hc|].
  intros g w msg. cbn. discriminate.
Qed.

Lemma errorsIn_render (n : Node) : errorsIn Q (render n).
Proof.
  induction n as [ty data attr cs IH] using Node_forall_ind.
  assert (Hchildren :
            errorsIn Q (forEach (renderChild ToLower cfg render data) cs)).
  { apply errorsIn_forEach. eapply Forall_impl; [exact IH|].
    intros c Hc. now apply errorsIn_renderChild. }
  destruct ty; cbn [cleanhtml.render];
    try (intros g w msg; cbn; discriminate).
  - intros g w msg. cbn. intros [= <-]. left. now exists data.
  - intros g w msg. destruct (isTextWhitespace data); [cbn; discriminate|].
    rewrite escape_eq. cbn. discriminate.
  - now apply errorsIn_forEach.
  - destruct (renderableHTML !! ToLower data) as [pol|] eqn:Hpol.
    + apply errorsIn_decide_renderable. intros r.
      apply errorsIn_andThen; [|apply errorsIn_andThen].
      * destruct r; [|intros g w msg; cbn; discriminate].
        apply errorsIn_renderStartTag. cbn [Data]. rewrite Hpol. eauto.
      * exact Hchildren.
      * destruct r; intros g w msg; cbn; discriminate.
    + intros g w msg. unfold decide_renderable.
      rewrite isElementRenderable_absent by exact Hpol.
      revert msg.
      apply (errorsIn_andThen Q returnNil
               (forEach (renderChild ToLower cfg render data) cs ;; returnNil)).
      * intros g0 w0 msg. cbn. discriminate.
      * apply errorsIn_andThen; [exact Hchildren|].
        intros g0 w0 msg. cbn. discriminate.
  - intros g w msg. cbn. intros [= <-]. right. now left.
Qed.

(** Of the void elements the renderer refuses only br and col: when the
    lower-casing leaves the names of [voidElements] as they are, every
    error [render] returns is the error of an error node, the error of
    an unknown node type, or the void-element error of br or of col.
    (Other void names, such as img, are not in the policy table and
    [renderStartTag] is never called for them.) *)
Theorem render_void_error_only_br_col (n : Node) (g g' : globals)
    (w w' : writer) (msg : string) :
  render n g w = (Error msg, g', w') ->
  renderErrorMessage_br_col msg.
Proof.
  intros Hrun. apply (errorsIn_render n g w). now rewrite Hrun.
Qed.

End VoidError.

Lemma render_void_error_only_br_col_witness :
  (forall k, isVoid k = true -> Go.ToLowerASCII k = k)
  /\ render Go.ToLowerASCII defaultConfig svgColDocument initialGlobals ""
     = (Error "html: void element <col> has child nodes", initialGlobals,
        svgColPartialOutput)
  /\ renderErrorMessage_br_col "html: void element <col> has child nodes".
Proof.
  assert (Hlower : forall k, isVoid k = true -> Go.ToLowerASCII k = k).
  { intros k Hvoid. unfold isVoid in Hvoid.
    destruct (voidElements !! k) as [b|] eqn:Hk; [|discriminate Hvoid].
    exact (voidElements_lower_case k b Hk). }
  assert (Hrun : render Go.ToLowerASCII defaultConfig svgColDocument
                   initialGlobals ""
                 = (Error "html: void element <col> has child nodes",
                    initialGlobals, svgColPartialOutput))
    by (vm_compute; reflexivity).
  exact (conj Hlower
           (conj Hrun
              (render_void_error_only_br_col Go.ToLowerASCII defaultConfig
                 Hlower _ _ _ _ _ _ Hrun))).
Defined.
